(** * config-cpp: the Node tree and its JSON and YAML codecs

    A shallow embedding of
    - [headers/config-cpp/node.h], class [Config::Node] (the copy in
      [module/core/include/config/core/node.h] has the same control flow and
      prefixes its messages with the name of the error class),
    - [module/format/json/source/parse.cc] and [dump.cc], and
      [sources/format/json/parse.cc] and [dump.cc]: the two JSON codecs,
    - [module/format/yaml/source/parse.cc] and [dump.cc]: the YAML codec,
    - [module/io/source/open.cc] and [save.cc]: [Open] and [Save],
    followed by the properties of the specification that concern them and
    by further properties of the code.

    Conventions.  A C++ exception is a value of [Exception]; a call that may
    throw returns a [Result].  A non-const member function is a function from
    the node before the call to the node after it and the outcome
    ([Node.Method]); a member function that returns a [Node &] takes the use
    that is made of the reference as a continuation, which runs on the child
    referred to.  A key passed as [const char *] is the string of its
    characters; a key passed as [std::string] goes through [data()] and is
    cut at its first NUL ([c_str]).  What the third-party libraries
    (nlohmann::json, yaml-cpp, the file library) and the C++ ABI do is a
    parameter, gathered in the classes [Nlohmann], [YamlCpp], [YamlEmitter],
    [FileSystem] and [Platform]; the instances [recorded_nlohmann],
    [recorded_yaml_cpp], [recorded_emitter], [texts_by_path] and [gcc] serve
    to run the code on examples. *)

From Stdlib Require Import ZArith Ascii String PrimFloat.
From stdpp Require Import gmap strings list fin_maps pretty.

Set Warnings "-register-all".
Set Default Proof Using "Type*".

Local Open Scope string_scope.
Local Open Scope Z_scope.

(** ** Machine integers *)

(** Conversion of an integer value to [std::uint64_t]. *)
Definition to_uint64 (z : Z) : Z := z mod 2 ^ 64.

(** Conversion of an integer value to [std::int64_t]. *)
Definition to_int64 (z : Z) : Z := (z + 2 ^ 63) mod 2 ^ 64 - 2 ^ 63.

(** The values of an [int] (32 bits). *)
Definition is_int (z : Z) : Prop := - 2 ^ 31 <= z < 2 ^ 31.

(** ** Exceptions and results *)

(** The exception classes of the code: those of the library
    ([Config::NodeError], [Config::JsonFormat::ParseError] and [DumpError],
    [Config::YamlFormat::ParseError]), [std::out_of_range], and those of the
    third-party libraries ([nlohmann::json::exception]; [YAML::Exception]
    and its subclass [YAML::BadConversion]), which the codecs catch.  Each
    carries its [what()] text, except [std::out_of_range], whose text belongs
    to the C++ runtime. *)
Inductive Exception : Type :=
| NodeError (what : string)
| std_out_of_range
| JsonFormat_ParseError (what : string)
| JsonFormat_DumpError (what : string)
| YamlFormat_ParseError (what : string)
| json_exception (what : string)
| YAML_BadConversion (what : string)
| YAML_Exception (what : string).

(** [error.h]: "All exceptions thrown by the library will derive from this
    class", [Config::Error].  [NodeError], [JsonError] (and its [ParseError]
    and [DumpError]) and [YamlError] derive from it; [std::out_of_range] is a
    [std::logic_error] and does not. *)
Definition derives_from_Error (e : Exception) : bool :=
  match e with
  | NodeError _ => true
  | std_out_of_range => false
  | JsonFormat_ParseError _ => true
  | JsonFormat_DumpError _ => true
  | YamlFormat_ParseError _ => true
  | json_exception _ => false
  | YAML_BadConversion _ => false
  | YAML_Exception _ => false
  end.

Definition is_NodeError (e : Exception) : bool :=
  match e with NodeError _ => true | _ => false end.

(** The outcome of a call: a value, an exception, or undefined behaviour (an
    unchecked [std::vector::operator[]] out of range). *)
Inductive Result (A : Type) : Type :=
| Return (a : A)
| Throw (e : Exception)
| Undefined.
Arguments Return {A} a.
Arguments Throw {A} e.
Arguments Undefined {A}.

#[global] Instance Result_ret : MRet Result := @Return.
#[global] Instance Result_bind : MBind Result := fun A B f r =>
  match r with
  | Return a => f a
  | Throw e => Throw e
  | Undefined => Undefined
  end.

#[global] Instance Result_fmap : FMap Result := fun A B f r =>
  match r with
  | Return a => Return (f a)
  | Throw e => Throw e
  | Undefined => Undefined
  end.

Definition returns {A} (r : Result A) : bool :=
  match r with Return _ => true | _ => false end.

(** [msg] has [part] as a substring. *)
Definition includes (msg part : string) : Prop :=
  exists pre post, msg = pre ++ part ++ post.

(** The characters that a [const char *] obtained from [s.data()] names:
    those before the first NUL of [s]. *)
Fixpoint c_str (s : string) : string :=
  match s with
  | EmptyString => EmptyString
  | String.String c rest =>
      if Ascii.eqb c "000"%char then EmptyString else String.String c (c_str rest)
  end.

(** The line feed of a ["\n"] in a format string. *)
Definition LF : string := String.String "010"%char EmptyString.

(** ** The platform *)

(** [enum class NodeType]. *)
Module NodeType.
Inductive t : Type :=
| Null | String | Boolean | Integer | Floating | Sequence | Object.
End NodeType.

(** What [Node::Demangle<T>()] returns for each alternative [T] of the
    variant: [typeid(T).name()], demangled under GCC.  It is the C++ ABI's. *)
Class Platform : Type := {
  Demangle : NodeType.t -> string
}.

(** What the compiler decides where the standard has changed: whether a
    member access through [this] that reads nothing of the object, as the
    call of a constexpr member function is, may appear in a constant
    expression of a member function that is not being evaluated as one
    (P2280R4). *)
Class Compiler : Type := {
  admits_this_in_constant_expressions : bool
}.

(** A call of a function template at a type argument: ill formed, so that
    no program has the call, or well formed, with what the call does. *)
Inductive Instantiation (A : Type) : Type :=
| Ill_formed
| Well_formed (call : A).
Arguments Ill_formed {A}.
Arguments Well_formed {A} call.

(** ** [class Node] *)

Module Node.

(** [Node::Value], the variant a [Node] holds in [value_]:
    [Null = std::monostate], [String = std::string], [Boolean = bool],
    [Integer = std::int64_t], [Floating = double],
    [Sequence = std::vector<Node>],
    [Object = std::unordered_map<std::string, Node>]. *)
Inductive t : Type :=
| Null
| String (string : string)
| Boolean (boolean : bool)
| Integer (integer : Z)
| Floating (floating : float)
| Sequence (sequence : list t)
| Object (object : gmap string t).

(** A non-const member function returning [A]: from [*this] before the call
    to [*this] after it and the outcome. *)
Definition Method (A : Type) : Type := t -> t * Result A.

(** Reading through a reference. *)
Definition read : Method t := fun self => (self, Return self).

Definition IsNull (self : t) : bool :=
  match self with Null => true | _ => false end.
Definition IsString (self : t) : bool :=
  match self with String _ => true | _ => false end.
Definition IsBoolean (self : t) : bool :=
  match self with Boolean _ => true | _ => false end.
Definition IsInteger (self : t) : bool :=
  match self with Integer _ => true | _ => false end.
Definition IsFloating (self : t) : bool :=
  match self with Floating _ => true | _ => false end.
Definition IsSequence (self : t) : bool :=
  match self with Sequence _ => true | _ => false end.
Definition IsObject (self : t) : bool :=
  match self with Object _ => true | _ => false end.

Definition TypeString (self : t) : string :=
  if IsNull self then "Null"
  else if IsString self then "String"
  else if IsBoolean self then "Boolean"
  else if IsInteger self then "Integer"
  else if IsFloating self then "Floating"
  else if IsSequence self then "Sequence"
  else if IsObject self then "Object"
  else "Undefined".

Definition Type_ (self : t) : Result NodeType.t :=
  if IsNull self then Return NodeType.Null
  else if IsString self then Return NodeType.String
  else if IsBoolean self then Return NodeType.Boolean
  else if IsInteger self then Return NodeType.Integer
  else if IsFloating self then Return NodeType.Floating
  else if IsSequence self then Return NodeType.Sequence
  else if IsObject self then Return NodeType.Object
  else Throw (NodeError "Failed to determine node type.").

(** A type argument [T] of [Is<T>], [To<T>] and [ValueOr<T>], as namespace
    [trait] classifies it, with the conversion from the value held to [T].
    [IsString_] is [std::string] or [std::string_view] and [IsCString_] is
    [const char *], the third type of [trait::IsString], to which a
    [std::string] does not convert; [IsBoolean_] is [bool], which
    [trait::IsInteger], being [std::is_integral_v], accepts too;
    [IsInteger_] is any other integral type.  [custom] is a type none of
    the six traits accepts; its [To<T>] is the overload constrained by
    [trait::HasFromConfigConverter] and runs the converter of the type. *)
Inductive TypeArg (T : Type) : Type :=
| IsString_ (conv : string -> T)
| IsCString_
| IsBoolean_ (conv : bool -> T)
| IsInteger_ (conv : Z -> T)
| IsFloating_ (conv : float -> T)
| IsSequence_ (conv : list t -> T)
| IsObject_ (conv : gmap string t -> T)
| custom (FromConfig : t -> Result T).
Arguments IsString_ {T} conv.
Arguments IsCString_ {T}.
Arguments IsBoolean_ {T} conv.
Arguments IsInteger_ {T} conv.
Arguments IsFloating_ {T} conv.
Arguments IsSequence_ {T} conv.
Arguments IsObject_ {T} conv.
Arguments custom {T} FromConfig.

(** [int]: an integral type; the conversion from [std::int64_t] keeps the low
    32 bits. *)
Definition int : TypeArg Z :=
  IsInteger_ (fun i => (i + 2 ^ 31) mod 2 ^ 32 - 2 ^ 31).

(** [template <typename T> constexpr bool Is() const]: the first of the
    [if constexpr] tests that [T] passes returns. *)
Definition Is {T} (ty : TypeArg T) (self : t) : bool :=
  match ty with
  | IsString_ _ => IsString self
  | IsCString_ => IsString self
  | IsBoolean_ _ => IsBoolean self
  | IsInteger_ _ => IsInteger self
  | IsFloating_ _ => IsFloating self
  | IsSequence_ _ => IsSequence self
  | IsObject_ _ => IsObject self
  | custom _ => false
  end.

Section WithPlatform.
Context `{Platform}.

(** The [NodeError] of [As<T>]: [std::get<T>] threw. *)
Definition Conversion_failed (self : t) (T : NodeType.t) : Exception :=
  NodeError ("Conversion " ++ TypeString self ++ " -> " ++ Demangle T ++ " failed.").

Definition AsString (self : t) : Result string :=
  match self with
  | String s => Return s
  | _ => Throw (Conversion_failed self NodeType.String)
  end.
Definition AsBoolean (self : t) : Result bool :=
  match self with
  | Boolean b => Return b
  | _ => Throw (Conversion_failed self NodeType.Boolean)
  end.
Definition AsInteger (self : t) : Result Z :=
  match self with
  | Integer i => Return i
  | _ => Throw (Conversion_failed self NodeType.Integer)
  end.
Definition AsFloating (self : t) : Result float :=
  match self with
  | Floating f => Return f
  | _ => Throw (Conversion_failed self NodeType.Floating)
  end.
Definition AsSequence (self : t) : Result (list t) :=
  match self with
  | Sequence v => Return v
  | _ => Throw (Conversion_failed self NodeType.Sequence)
  end.
Definition AsObject (self : t) : Result (gmap string t) :=
  match self with
  | Object m => Return m
  | _ => Throw (Conversion_failed self NodeType.Object)
  end.

(** The overloads of [To<T>() const], each constrained by the concept of
    its trait.  [bool] satisfies [trait::Boolean] and [trait::Integer], and
    neither constraint subsumes the other, so that [To<bool>()] is
    ambiguous; the overload for [trait::String] is [S To() const
    { return AsString(); }], whose [return] has no conversion from a
    [const std::string &] to a [const char *].  Those two calls are ill
    formed. *)
Definition To {T} (ty : TypeArg T) (self : t) : Instantiation (Result T) :=
  match ty with
  | IsString_ conv => Well_formed (conv <$> AsString self)
  | IsCString_ => Ill_formed
  | IsBoolean_ _ => Ill_formed
  | IsInteger_ conv => Well_formed (conv <$> AsInteger self)
  | IsFloating_ conv => Well_formed (conv <$> AsFloating self)
  | IsSequence_ conv => Well_formed (conv <$> AsSequence self)
  | IsObject_ conv => Well_formed (conv <$> AsObject self)
  | custom FromConfig => Well_formed (FromConfig self)
  end.

(** [Is<T>()] as the condition of the [if constexpr] of [ValueOr]: its
    value, when it is a constant expression.  For a [T] that one of the six
    traits accepts, [Is<T>()] calls [IsString()], ..., [IsObject()], which
    are not constexpr functions and read [value_], so that it is none.  For
    any other [T] the body of [Is<T>()] is [return false;], a constant
    expression for a compiler that admits the [this] of the call. *)
Definition Is_as_constant `{Compiler} {T} (ty : TypeArg T) : option bool :=
  match ty with
  | custom _ => if admits_this_in_constant_expressions then Some false else None
  | _ => None
  end.

(** [T ValueOr(const T &value)]:
    [if constexpr (Is<T>()) { return To<T>(); } else { return value; }].
    The condition of an [if constexpr] has to be a constant expression, and
    the branch not taken is not instantiated. *)
Definition ValueOr `{Compiler} {T} (ty : TypeArg T) (value : T) (self : t)
  : Instantiation (Result T) :=
  match Is_as_constant ty with
  | Some true => To ty self
  | Some false => Well_formed (Return value)
  | None => Ill_formed
  end.

(** [std::uint64_t Length() const]; behind their guards [AsSequence] and
    [AsObject] return the value held. *)
Definition Length (self : t) : Z :=
  match self with
  | Sequence v => Z.of_nat (length v)
  | Object m => Z.of_nat (size m)
  | _ => 0
  end.

(** [bool Contains(const char *field) const]. *)
Definition Contains (field : string) (self : t) : Result bool :=
  if negb (IsObject self) then Return false
  else m ← AsObject self; Return (bool_decide (is_Some (m !! field))).

(** [const Node &operator[](const char *field) const]:
    [AsObject().at(field)]. *)
Definition subscript_const (field : string) (self : t) : Result t :=
  m ← AsObject self;
  match m !! field with
  | Some child => Return child
  | None => Throw std_out_of_range
  end.

(** [Node &operator[](const char *field)], with the use [k] made of the
    reference it returns.  [std::unordered_map::operator[]] inserts a
    default-constructed [Node] under a key that is absent. *)
Definition subscript {A} (field : string) (k : Method A) : Method A := fun self =>
  if negb (IsObject self) && negb (IsNull self) then
    (self, Throw (NodeError ("Cannot access field '" ++ field ++ "' on non-object node.")))
  else
    let self := if IsNull self then Object ∅ else self in
    match AsObject self with
    | Return m =>
        let m := match m !! field with Some _ => m | None => <[field := Null]> m end in
        let '(child, r) := k (default Null (m !! field)) in
        (Object (<[field := child]> m), r)
    | Throw e => (self, Throw e)
    | Undefined => (self, Undefined)
    end.

(** [Node &operator[](const std::string &field)]:
    [operator[](field.data())]. *)
Definition subscript_string {A} (field : string) (k : Method A) : Method A :=
  subscript (c_str field) k.

(** [const Node &operator[](const std::string &field) const]. *)
Definition subscript_string_const (field : string) (self : t) : Result t :=
  subscript_const (c_str field) self.

(** [Node &operator=(I integer)] and the copy assignment. *)
Definition assign_Integer (integer : Z) : Method unit := fun _ =>
  (Integer (to_int64 integer), Return tt).
Definition assign (node : t) : Method unit := fun _ => (node, Return tt).

(** [void Push(const Node &node)]. *)
Definition Push (node : t) : Method unit := fun self =>
  if negb (IsSequence self) && negb (IsNull self) then
    (self, Throw (NodeError "Cannot push to non-sequence node."))
  else
    let self := if IsNull self then Sequence [] else self in
    match AsSequence self with
    | Return v => (Sequence (v ++ [node]), Return tt)
    | Throw e => (self, Throw e)
    | Undefined => (self, Undefined)
    end.

(** The text of the out-of-bounds [NodeError]. *)
Definition Index_out_of_bounds (index length : Z) : string :=
  "Index out of bounds" ++ LF ++
  "Index  : " ++ pretty index ++ "        " ++ LF ++
  "Length : " ++ pretty length.

(** [SubscriptOperator(Self &self, std::uint64_t index)], with the use [k]
    made of the reference it returns; [self.AsSequence()[index]] is the
    unchecked [std::vector::operator[]]. *)
Definition SubscriptOperator {A} (index : Z) (k : Method A) : Method A := fun self =>
  if negb (IsSequence self) then
    (self, Throw (NodeError "Cannot access node. Node is not a sequence"))
  else if Length self <=? index then
    (self, Throw (NodeError (Index_out_of_bounds index (Length self))))
  else
    match AsSequence self with
    | Return v =>
        match v !! Z.to_nat index with
        | Some element =>
            let '(element, r) := k element in
            (Sequence (<[Z.to_nat index := element]> v), r)
        | None => (self, Undefined)
        end
    | Throw e => (self, Throw e)
    | Undefined => (self, Undefined)
    end.

(** [Node &operator[](int index)]: the [int] converts to the
    [std::uint64_t] parameter of [SubscriptOperator]. *)
Definition subscript_index {A} (index : Z) (k : Method A) : Method A :=
  SubscriptOperator (to_uint64 index) k.

(** [const Node &operator[](int index) const]. *)
Definition subscript_index_const (index : Z) (self : t) : Result t :=
  snd (SubscriptOperator (to_uint64 index) read self).

End WithPlatform.
End Node.

Abbreviation Node := Node.t.

(** ** [Config::Error] of [module/core/include/config/core/error.h] *)

Definition Namespace (prefix message : string) : string := prefix ++ "::" ++ message.
Definition Message (prefix message : string) : string := prefix ++ ": " ++ message.

(** [Error(message) : std::runtime_error(Namespace("Config", message))]. *)
Definition module_Error (message : string) : string := Namespace "Config" message.
(** [JsonError(message) : Error(Namespace("JsonError", message))]. *)
Definition module_JsonError (message : string) : string :=
  module_Error (Namespace "JsonError" message).
(** [YamlError(message) : Error(Namespace("YamlError", message))]. *)
Definition module_YamlError (message : string) : string :=
  module_Error (Namespace "YamlError" message).

(** ** nlohmann::json *)

(** A [nlohmann::json] value, by its [value_t]. *)
Inductive Json : Type :=
| Jnull
| Jobject (members : gmap string Json)
| Jarray (elements : list Json)
| Jstring (s : string)
| Jboolean (b : bool)
| Jnumber_integer (i : Z)
| Jnumber_unsigned (u : Z)
| Jnumber_float (f : float)
| Jbinary (bytes : list Z)
| Jdiscarded.

(** The numeric value of [input.type()]. *)
Definition value_t (input : Json) : Z :=
  match input with
  | Jnull => 0
  | Jobject _ => 1
  | Jarray _ => 2
  | Jstring _ => 3
  | Jboolean _ => 4
  | Jnumber_integer _ => 5
  | Jnumber_unsigned _ => 6
  | Jnumber_float _ => 7
  | Jbinary _ => 8
  | Jdiscarded => 9
  end.

Definition type_name (input : Json) : string :=
  match input with
  | Jnull => "null"
  | Jobject _ => "object"
  | Jarray _ => "array"
  | Jstring _ => "string"
  | Jboolean _ => "boolean"
  | Jbinary _ => "binary"
  | Jdiscarded => "discarded"
  | _ => "number"
  end.

(** The outcome of a call into a third-party library: a value, or its
    exception with the [what()] text. *)
Inductive Raised (A : Type) : Type :=
| Ok (a : A)
| Raise (what : string).
Arguments Ok {A} a.
Arguments Raise {A} what.

(** What the codecs take from nlohmann::json besides the value type:
    [json::parse] on a text, [dump(indent)], and the casts between
    [double] and [std::int64_t] inside [get<T>]. *)
Class Nlohmann : Type := {
  json_parse : string -> Raised Json;
  json_dump : Json -> Z -> Raised string;
  double_to_int64 : float -> Z;
  integer_to_double : Z -> float
}.

Definition of_json {A} (r : Raised A) : Result A :=
  match r with
  | Ok a => Return a
  | Raise what => Throw (json_exception what)
  end.

Definition type_error_302 (expected : string) (input : Json) : Exception :=
  json_exception
    ("[json.exception.type_error.302] type must be " ++ expected ++ ", but is " ++ type_name input).

Section Json_get.
Context `{Nlohmann}.

(** [input.get<std::string>()]. *)
Definition get_String (input : Json) : Result string :=
  match input with
  | Jstring s => Return s
  | _ => Throw (type_error_302 "string" input)
  end.

(** [input.get<bool>()]. *)
Definition get_Boolean (input : Json) : Result bool :=
  match input with
  | Jboolean b => Return b
  | _ => Throw (type_error_302 "boolean" input)
  end.

(** [input.get<std::int64_t>()]. *)
Definition get_Integer (input : Json) : Result Z :=
  match input with
  | Jnumber_integer i => Return i
  | Jnumber_unsigned u => Return (to_int64 u)
  | Jnumber_float f => Return (double_to_int64 f)
  | _ => Throw (type_error_302 "number" input)
  end.

(** [input.get<double>()]. *)
Definition get_Floating (input : Json) : Result float :=
  match input with
  | Jnumber_float f => Return f
  | Jnumber_integer i => Return (integer_to_double i)
  | Jnumber_unsigned u => Return (integer_to_double u)
  | _ => Throw (type_error_302 "number" input)
  end.

(** [output.push_back(element)]. *)
Definition push_back (element : Json) (output : Json) : Result Json :=
  match output with
  | Jarray elements => Return (Jarray (elements ++ [element]))
  | Jnull => Return (Jarray [element])
  | _ => Throw (json_exception
           ("[json.exception.type_error.308] cannot use push_back() with " ++ type_name output))
  end.

(** [output[field] = element]. *)
Definition set_member (field : string) (element : Json) (output : Json) : Result Json :=
  match output with
  | Jobject members => Return (Jobject (<[field := element]> members))
  | Jnull => Return (Jobject {[field := element]})
  | _ => Throw (json_exception
           ("[json.exception.type_error.305] cannot use operator[] with a string argument with "
              ++ type_name output))
  end.

End Json_get.

(** A statement on a local [Node output]: the node after it, or what it
    threw. *)
Definition run (statement : Node.Method unit) (output : Node) : Result Node :=
  let '(output, r) := statement output in _ ← r; Return output.

(** ** [module/format/json/source/parse.cc] *)

Module module_json_parse.
Section WithLibraries.
Context `{Platform} `{Nlohmann}.

Definition ParseError (message : string) : Exception :=
  JsonFormat_ParseError (module_JsonError (Message "ParseError" message)).

Definition ConvertNull (input : Json) : Result Node := Return Node.Null.
Definition ConvertString (input : Json) : Result Node := Node.String <$> get_String input.
Definition ConvertBoolean (input : Json) : Result Node := Node.Boolean <$> get_Boolean input.
Definition ConvertInteger (input : Json) : Result Node := Node.Integer <$> get_Integer input.
Definition ConvertFloating (input : Json) : Result Node := Node.Floating <$> get_Floating input.

Definition ConvertSequence (Convert : Json -> Result Node) (input : list Json) : Result Node :=
  foldl (fun output element =>
           output ← output; node ← Convert element; run (Node.Push node) output)
        (Return Node.Null) input.

Definition ConvertObject (Convert : Json -> Result Node) (input : gmap string Json) : Result Node :=
  map_fold (fun field element output =>
              output ← output; node ← Convert element;
              run (Node.subscript_string field (Node.assign node)) output)
           (Return Node.Null) input.

Fixpoint Convert (input : Json) : Result Node :=
  match input with
  | Jnull => ConvertNull input
  | Jstring _ => ConvertString input
  | Jboolean _ => ConvertBoolean input
  | Jnumber_integer _ => ConvertInteger input
  | Jnumber_unsigned _ => ConvertInteger input
  | Jnumber_float _ => ConvertFloating input
  | Jarray elements => ConvertSequence Convert elements
  | Jobject members => ConvertObject Convert members
  | _ => Return Node.Null
  end.

Definition Parse (content : string) : Result Node :=
  match input ← of_json (json_parse content); Convert input with
  | Throw (json_exception what) => Throw (ParseError what)
  | r => r
  end.

End WithLibraries.
End module_json_parse.

(** ** [sources/format/json/parse.cc] *)

Module sources_json_parse.
Section WithLibraries.
Context `{Platform} `{Nlohmann}.

(** [struct ParseError : JsonError] with the inherited constructors of
    [headers/config-cpp]: the text is the message. *)
Definition ParseError (message : string) : Exception := JsonFormat_ParseError message.

Definition ConvertNull (input : Json) : Result Node := Return Node.Null.
Definition ConvertString (input : Json) : Result Node := Node.String <$> get_String input.
Definition ConvertBoolean (input : Json) : Result Node := Node.Boolean <$> get_Boolean input.
Definition ConvertInteger (input : Json) : Result Node := Node.Integer <$> get_Integer input.
Definition ConvertFloating (input : Json) : Result Node := Node.Floating <$> get_Floating input.

Definition ConvertSequence (Convert : Json -> Result Node) (input : list Json) : Result Node :=
  foldl (fun output element =>
           output ← output; node ← Convert element; run (Node.Push node) output)
        (Return Node.Null) input.

Definition ConvertObject (Convert : Json -> Result Node) (input : gmap string Json) : Result Node :=
  map_fold (fun field element output =>
              output ← output; node ← Convert element;
              run (Node.subscript_string field (Node.assign node)) output)
           (Return Node.Null) input.

Fixpoint Convert (input : Json) : Result Node :=
  match input with
  | Jnull => ConvertNull input
  | Jstring _ => ConvertString input
  | Jboolean _ => ConvertBoolean input
  | Jnumber_integer _ => ConvertInteger input
  | Jnumber_unsigned _ => ConvertInteger input
  | Jnumber_float _ => ConvertFloating input
  | Jarray elements => ConvertSequence Convert elements
  | Jobject members => ConvertObject Convert members
  | _ => Throw (ParseError ("Undefined JsonType (" ++ pretty (value_t input) ++ ")"))
  end.

Definition Parse (content : string) : Result Node :=
  match input ← of_json (json_parse content); Convert input with
  | Throw (json_exception what) => Throw (ParseError what)
  | r => r
  end.

End WithLibraries.
End sources_json_parse.

(** ** [module/format/json/source/dump.cc] *)

Module module_json_dump.
Section WithLibraries.
Context `{Platform} `{Nlohmann}.

Definition DumpError (message : string) : Exception :=
  JsonFormat_DumpError (module_JsonError (Message "DumpError" message)).

Definition ConvertNull (node : Node) : Result Json := Return Jnull.
Definition ConvertString (node : Node) : Result Json := Jstring <$> Node.AsString node.
Definition ConvertBoolean (node : Node) : Result Json := Jboolean <$> Node.AsBoolean node.
Definition ConvertInteger (node : Node) : Result Json := Jnumber_integer <$> Node.AsInteger node.
Definition ConvertFloating (node : Node) : Result Json := Jnumber_float <$> Node.AsFloating node.

Definition ConvertSequence (Convert : Node -> Result Json) (sequence : list Node) : Result Json :=
  foldl (fun output element =>
           output ← output; j ← Convert element; push_back j output)
        (Return (Jarray [])) sequence.

Definition ConvertObject (Convert : Node -> Result Json) (object : gmap string Node) : Result Json :=
  map_fold (fun field element output =>
              output ← output; j ← Convert element; set_member field j output)
           (Return (Jobject ∅)) object.

(** [switch (node.Type())]: the seven alternatives are the seven cases, so
    the [default] that throws [DumpError("Undefined NodeType")] has no
    value to run on. *)
Fixpoint Convert (node : Node) : Result Json :=
  match node with
  | Node.Null => ConvertNull node
  | Node.String _ => ConvertString node
  | Node.Boolean _ => ConvertBoolean node
  | Node.Integer _ => ConvertInteger node
  | Node.Floating _ => ConvertFloating node
  | Node.Sequence sequence => ConvertSequence Convert sequence
  | Node.Object object => ConvertObject Convert object
  end.

Definition Dump (node : Node) : Result string :=
  match output ← Convert node; of_json (json_dump output 4) with
  | Throw (json_exception what) => Throw (DumpError what)
  | r => r
  end.

End WithLibraries.
End module_json_dump.

(** ** yaml-cpp *)

(** A [YAML::Node], by its [YAML::NodeType]; a map keeps its entries, keys
    and values both nodes, in document order. *)
Inductive Yaml : Type :=
| YUndefined
| YNull
| YScalar (scalar : string)
| YSequence (elements : list Yaml)
| YMap (entries : list (Yaml * Yaml)).

(** What the codec takes from yaml-cpp besides the node type: [YAML::Load]
    on a text, the conversions [as<std::int64_t>], [as<double>] and
    [as<bool>] of a node, and [as<std::string>] of a node that is not a
    scalar (the text ["null"] or a [BadConversion], by the node and the
    version of the library). *)
Class YamlCpp : Type := {
  Load : string -> Raised Yaml;
  as_Integer : Yaml -> Raised Z;
  as_Floating : Yaml -> Raised float;
  as_Boolean : Yaml -> Raised bool;
  as_String_of_non_scalar : Yaml -> Raised string
}.

Definition of_yaml {A} (r : Raised A) : Result A :=
  match r with
  | Ok a => Return a
  | Raise what => Throw (YAML_Exception what)
  end.

Definition of_as {A} (r : Raised A) : Result A :=
  match r with
  | Ok a => Return a
  | Raise what => Throw (YAML_BadConversion what)
  end.

Section Yaml_as.
Context `{YamlCpp}.

(** [input.as<std::string>()]: yaml-cpp returns the text of a scalar as it
    stands. *)
Definition as_String (input : Yaml) : Result string :=
  match input with
  | YScalar scalar => Return scalar
  | _ => of_as (as_String_of_non_scalar input)
  end.

End Yaml_as.

(** [try { body } catch (const YAML::BadConversion &) { handler }]. *)
Definition catch_BadConversion {A} (body handler : Result A) : Result A :=
  match body with
  | Throw (YAML_BadConversion _) => handler
  | r => r
  end.

(** ** [module/format/yaml/source/parse.cc] *)

Module module_yaml_parse.
Section WithLibraries.
Context `{Platform} `{YamlCpp}.

Definition ParseError (message : string) : Exception :=
  YamlFormat_ParseError (module_YamlError (Message "ParseError" message)).

Definition ConvertNull (input : Yaml) : Result Node := Return Node.Null.

Definition ConvertSequence (Convert : Yaml -> Result Node) (input : list Yaml) : Result Node :=
  foldl (fun output element =>
           output ← output; node ← Convert element; run (Node.Push node) output)
        (Return Node.Null) input.

Definition ConvertMap (Convert : Yaml -> Result Node) (input : list (Yaml * Yaml)) : Result Node :=
  foldl (fun output element =>
           output ← output; node ← Convert element.2; field ← as_String element.1;
           run (Node.subscript_string field (Node.assign node)) output)
        (Return Node.Null) input.

Definition ConvertScalar (input : Yaml) : Result Node :=
  catch_BadConversion (Node.String <$> as_String input)
    (catch_BadConversion (Node.Integer <$> of_as (as_Integer input))
       (catch_BadConversion (Node.Floating <$> of_as (as_Floating input))
          (Node.Boolean <$> of_as (as_Boolean input)))).

Fixpoint Convert (input : Yaml) : Result Node :=
  match input with
  | YNull => ConvertNull input
  | YScalar _ => ConvertScalar input
  | YSequence elements => ConvertSequence Convert elements
  | YMap entries => ConvertMap Convert entries
  | YUndefined => Throw (ParseError "UndefinedNodeType")
  end.

Definition Parse (input : string) : Result Node :=
  match input ← of_yaml (Load input); Convert input with
  | Throw (YAML_Exception what) => Throw (ParseError what)
  | Throw (YAML_BadConversion what) => Throw (ParseError what)
  | r => r
  end.

End WithLibraries.
End module_yaml_parse.

(** ** The specification's words *)

(** "A scalar that is lexically a valid integer (optionally signed, no
    fractional or exponent part)". *)
Definition is_digit (c : ascii) : bool :=
  (48 <=? Z.of_nat (nat_of_ascii c)) && (Z.of_nat (nat_of_ascii c) <=? 57).

Fixpoint all_digits (s : string) : bool :=
  match s with
  | EmptyString => true
  | String c rest => is_digit c && all_digits rest
  end.

Definition unsigned_integer (s : string) : bool :=
  match s with
  | EmptyString => false
  | _ => all_digits s
  end.

Definition lexically_integer (s : string) : bool :=
  match s with
  | String "+" rest => unsigned_integer rest
  | String "-" rest => unsigned_integer rest
  | _ => unsigned_integer s
  end.

(** A JSON value that a text can denote: every value in it has one of the
    eight types that [Convert] maps. *)
Fixpoint in_mapping (input : Json) : bool :=
  match input with
  | Jbinary _ => false
  | Jdiscarded => false
  | Jarray elements => forallb in_mapping elements
  | Jobject members => map_fold (fun _ element rest => in_mapping element && rest) true members
  | _ => true
  end.

(** "Either both return equal Node trees or both fail with a
    ParseError-kind fault". *)
Definition agree (a b : Result Node) : Prop :=
  match a, b with
  | Return n, Return n' => n = n'
  | Throw (JsonFormat_ParseError _), Throw (JsonFormat_ParseError _) => True
  | _, _ => False
  end.

(** The value a node holds, converted to [T], when [T] is the type of the
    variant held. *)
Definition held {T} (ty : Node.TypeArg T) (self : Node) : option T :=
  match ty, self with
  | Node.IsString_ conv, Node.String s => Some (conv s)
  | Node.IsBoolean_ conv, Node.Boolean b => Some (conv b)
  | Node.IsInteger_ conv, Node.Integer i => Some (conv i)
  | Node.IsFloating_ conv, Node.Floating f => Some (conv f)
  | Node.IsSequence_ conv, Node.Sequence v => Some (conv v)
  | Node.IsObject_ conv, Node.Object m => Some (conv m)
  | _, _ => None
  end.

(** The JSON value that [Convert] of [dump.cc] builds for a node. *)
Fixpoint to_json (node : Node) : Json :=
  match node with
  | Node.Null => Jnull
  | Node.String s => Jstring s
  | Node.Boolean b => Jboolean b
  | Node.Integer i => Jnumber_integer i
  | Node.Floating f => Jnumber_float f
  | Node.Sequence v => Jarray (to_json <$> v)
  | Node.Object m => Jobject (to_json <$> m)
  end.

(** What nlohmann::json reads back from the text it printed for a value:
    the same value, except that a number without sign, fraction or exponent
    is a [number_unsigned], and that a NaN or an infinity, printed as
    [null], is a null. *)
Fixpoint read_back (output : Json) : Json :=
  match output with
  | Jnumber_integer i => if 0 <=? i then Jnumber_unsigned i else output
  | Jnumber_float f => if is_finite f then output else Jnull
  | Jarray elements => Jarray (read_back <$> elements)
  | Jobject members => Jobject (read_back <$> members)
  | _ => output
  end.

(** [P] holds of every node of the tree. *)
Fixpoint Node_all (P : Node -> bool) (node : Node) : bool :=
  P node &&
  match node with
  | Node.Sequence v => forallb (Node_all P) v
  | Node.Object m => map_fold (fun _ element rest => Node_all P element && rest) true m
  | _ => true
  end.

(** An Integer is a [std::int64_t], a Floating is finite, a Sequence or an
    Object has an element, and no key of an Object has a NUL in it. *)
Definition faithful_in_json (node : Node) : bool :=
  match node with
  | Node.Integer i => (- 2 ^ 63 <=? i) && (i <? 2 ^ 63)
  | Node.Floating f => is_finite f
  | Node.Sequence v => negb (bool_decide (length v = 0%nat))
  | Node.Object m =>
      negb (bool_decide (size m = 0%nat))
      && bool_decide (map_Forall (fun field _ => c_str field = field) m)
  | _ => true
  end.

Section Roundtrip_def.
Context `{Platform} `{Nlohmann}.

(** [Parse(Dump(node))]. *)
Definition Parse_Dump (node : Node) : Result Node :=
  text ← module_json_dump.Dump node; module_json_parse.Parse text.

End Roundtrip_def.

(** ** Measures for induction *)

Fixpoint Json_size (input : Json) : nat :=
  match input with
  | Jarray elements => S (foldr (fun element rest => Json_size element + rest)%nat 0%nat elements)
  | Jobject members =>
      S (map_fold (fun _ element rest => Json_size element + rest)%nat 0%nat members)
  | _ => 1%nat
  end.

Fixpoint Node_size (node : Node) : nat :=
  match node with
  | Node.Sequence v => S (foldr (fun element rest => Node_size element + rest)%nat 0%nat v)
  | Node.Object m => S (map_fold (fun _ element rest => Node_size element + rest)%nat 0%nat m)
  | _ => 1%nat
  end.

(** ** A platform to run examples on *)

(** GCC on x86-64 Linux with libstdc++. *)
Definition std_string : string :=
  "std::__cxx11::basic_string<char, std::char_traits<char>, std::allocator<char> >".

Definition gcc : Platform := {|
  Demangle T :=
    match T with
    | NodeType.Null => "std::monostate"
    | NodeType.String => std_string
    | NodeType.Boolean => "bool"
    | NodeType.Integer => "long"
    | NodeType.Floating => "double"
    | NodeType.Sequence => "std::vector<Config::Node, std::allocator<Config::Node> >"
    | NodeType.Object =>
        "std::unordered_map<" ++ std_string ++ ", Config::Node, std::hash<" ++ std_string
        ++ " >, std::equal_to<" ++ std_string ++ " >, std::allocator<std::pair<"
        ++ std_string ++ " const, Config::Node> > >"
    end
|}.

(** [dump(4)] of the array of 8080 and 8081. *)
Definition printed_ports : string :=
  "[" ++ LF ++ "    8080," ++ LF ++ "    8081" ++ LF ++ "]".

(** The one-byte string [0xFF], which is not UTF-8. *)
Definition invalid_utf8 : string := String "255"%char EmptyString.

Definition unrecorded : string := "unrecorded call".

(** Calls of nlohmann::json and what they gave: [dump(4)] prints an empty
    array as [[]], the array of 8080 and 8081 on four lines, a NaN or an
    infinity as [null], and throws [type_error.316] on a string that is not
    UTF-8; [parse] reads these texts back, a number without sign as
    [number_unsigned]. *)
Definition recorded_nlohmann : Nlohmann := {|
  json_parse content :=
    if String.eqb content "[]" then Ok (Jarray [])
    else if String.eqb content "{}" then Ok (Jobject ∅)
    else if String.eqb content "null" then Ok Jnull
    else if String.eqb content printed_ports then
      Ok (Jarray [Jnumber_unsigned 8080; Jnumber_unsigned 8081])
    else Raise unrecorded;
  json_dump output indent :=
    match output with
    | Jnull => Ok "null"
    | Jarray [] => Ok "[]"
    | Jarray [Jnumber_integer 8080; Jnumber_integer 8081] => Ok printed_ports
    | Jnumber_float f => if is_finite f then Raise unrecorded else Ok "null"
    | Jstring s =>
        if String.eqb s invalid_utf8 then
          Raise "[json.exception.type_error.316] invalid UTF-8 byte at index 0: 0xFF"
        else Raise unrecorded
    | _ => Raise unrecorded
    end;
  double_to_int64 f := 0;
  integer_to_double i := PrimFloat.zero
|}.

(** The document of the YAML scenario, [ports:] with the items [8080] and
    [8081], as [YAML::Load] returns it. *)
Definition ports_document : Yaml :=
  YMap [(YScalar "ports", YSequence [YScalar "8080"; YScalar "8081"])].

Definition ports_text : string := "ports:" ++ LF ++ "  - 8080" ++ LF ++ "  - 8081".

(** Calls of yaml-cpp and what they gave: [Load] of the text of the
    scenario, and [as<std::int64_t>] of its two scalars. *)
Definition recorded_yaml_cpp : YamlCpp := {|
  Load input :=
    if String.eqb input ports_text then Ok ports_document else Raise unrecorded;
  as_Integer input :=
    match input with
    | YScalar scalar =>
        if String.eqb scalar "8080" then Ok 8080
        else if String.eqb scalar "8081" then Ok 8081
        else Raise unrecorded
    | _ => Raise "bad conversion"
    end;
  as_Floating input := Raise unrecorded;
  as_Boolean input := Raise unrecorded;
  as_String_of_non_scalar input := Raise unrecorded
|}.

(** ** [sources/format/json/dump.cc] *)

Module sources_json_dump.
Section WithLibraries.
Context `{Platform} `{Nlohmann}.

(** [struct DumpError : JsonError] with the inherited constructors of
    [headers/config-cpp]: the text is the message. *)
Definition DumpError (message : string) : Exception := JsonFormat_DumpError message.

Definition ConvertNull (node : Node) : Result Json := Return Jnull.
Definition ConvertString (node : Node) : Result Json := Jstring <$> Node.AsString node.
Definition ConvertBoolean (node : Node) : Result Json := Jboolean <$> Node.AsBoolean node.
Definition ConvertInteger (node : Node) : Result Json := Jnumber_integer <$> Node.AsInteger node.
Definition ConvertFloating (node : Node) : Result Json := Jnumber_float <$> Node.AsFloating node.

Definition ConvertSequence (Convert : Node -> Result Json) (sequence : list Node) : Result Json :=
  foldl (fun output element =>
           output ← output; j ← Convert element; push_back j output)
        (Return (Jarray [])) sequence.

Definition ConvertObject (Convert : Node -> Result Json) (object : gmap string Node) : Result Json :=
  map_fold (fun field element output =>
              output ← output; j ← Convert element; set_member field j output)
           (Return (Jobject ∅)) object.

(** [switch (node.Type())]: as in [module/], the [default] that throws
    [DumpError] has no value to run on. *)
Fixpoint Convert (node : Node) : Result Json :=
  match node with
  | Node.Null => ConvertNull node
  | Node.String _ => ConvertString node
  | Node.Boolean _ => ConvertBoolean node
  | Node.Integer _ => ConvertInteger node
  | Node.Floating _ => ConvertFloating node
  | Node.Sequence sequence => ConvertSequence Convert sequence
  | Node.Object object => ConvertObject Convert object
  end.

Definition Dump (node : Node) : Result string :=
  match output ← Convert node; of_json (json_dump output 4) with
  | Throw (json_exception what) => Throw (DumpError what)
  | r => r
  end.

End WithLibraries.
End sources_json_dump.

(** "Either both return the same text or both fail with a DumpError". *)
Definition agree_on_text (a b : Result string) : Prop :=
  match a, b with
  | Return text, Return text' => text = text'
  | Throw (JsonFormat_DumpError _), Throw (JsonFormat_DumpError _) => True
  | _, _ => False
  end.

(** ** Shapes of YAML documents and of the trees read from them *)

(** A document without an undefined node in which every key of a map is a
    scalar. *)
Fixpoint well_formed (input : Yaml) : bool :=
  match input with
  | YUndefined => false
  | YNull => true
  | YScalar _ => true
  | YSequence elements => forallb well_formed elements
  | YMap entries =>
      forallb (fun entry => match entry.1 with
                            | YScalar _ => well_formed entry.2
                            | _ => false
                            end) entries
  end.

(** A node that is a Null, a String, a Sequence or an Object. *)
Definition textual (node : Node) : bool :=
  match node with
  | Node.Boolean _ => false
  | Node.Integer _ => false
  | Node.Floating _ => false
  | _ => true
  end.

(** What [Convert] does on a document: it returns a tree of Null, String,
    Sequence and Object nodes, or throws a [BadConversion] or a
    [ParseError], and throws only on a document not well formed. *)
Definition Convert_outcome (input : Yaml) (r : Result Node) : Prop :=
  match r with
  | Return node => Node_all textual node = true
  | Throw (YAML_BadConversion _) => well_formed input = false
  | Throw (YamlFormat_ParseError _) => well_formed input = false
  | _ => False
  end.

(** ** yaml-cpp, writing *)

(** What [dump.cc] takes from yaml-cpp besides the construction of nodes:
    the text that [convert<double>::encode] gives a floating-point number,
    and [YAML::Dump] on a node. *)
Class YamlEmitter : Type := {
  encode_Floating : float -> string;
  YAML_Dump : Yaml -> Raised string
}.

(** [YAML::Node(rhs)] for a [bool] and for a [std::int64_t]: the scalar of
    [convert<bool>::encode], and of the decimal text that a stream prints. *)
Definition encode_Boolean (rhs : bool) : Yaml := YScalar (if rhs then "true" else "false").
Definition encode_Integer (rhs : Z) : Yaml := YScalar (pretty rhs).

(** [key->equals(field)] for a [std::string field]: the key decodes as a
    string, which a scalar does, to the same text. *)
Definition key_equals (key : Yaml) (field : string) : bool :=
  match key with
  | YScalar scalar => String.eqb scalar field
  | _ => false
  end.

(** [output[field] = value] on the entries of a map: the value of the first
    entry whose key equals [field] is replaced, and without one a new entry
    is added at the end. *)
Fixpoint assign_member (field : string) (value : Yaml) (entries : list (Yaml * Yaml))
  : list (Yaml * Yaml) :=
  match entries with
  | [] => [(YScalar field, value)]
  | entry :: rest =>
      if key_equals entry.1 field then (entry.1, value) :: rest
      else entry :: assign_member field value rest
  end.

(** ** Exceptions of the YAML writer and of [module/io] *)

(** Besides the exceptions of the node and of the readers: [DumpError] of
    [YamlFormat], [OpenError] and [SaveError], and whatever the file
    library throws. *)
Inductive IoException : Type :=
| from_format (e : Exception)
| YamlFormat_DumpError (what : string)
| OpenError (what : string)
| SaveError (what : string)
| File_exception (what : string).

Inductive Outcome (A : Type) : Type :=
| Returned (a : A)
| Threw (e : IoException)
| Unspecified.
Arguments Returned {A} a.
Arguments Threw {A} e.
Arguments Unspecified {A}.

Definition of_format {A} (r : Result A) : Outcome A :=
  match r with
  | Return a => Returned a
  | Throw e => Threw (from_format e)
  | Undefined => Unspecified
  end.

(** [IoError(message) : Error(Namespace("IoError", message))]. *)
Definition module_IoError (message : string) : string :=
  module_Error (Namespace "IoError" message).

(** ** [module/format/yaml/source/dump.cc] *)

Module module_yaml_dump.
Section WithLibraries.
Context `{Platform} `{YamlEmitter}.

Definition DumpError (message : string) : IoException :=
  YamlFormat_DumpError (module_YamlError (Message "DumpError" message)).

Definition ConvertNull (node : Node) : Result Yaml := Return YNull.
Definition ConvertString (input : Node) : Result Yaml := YScalar <$> Node.AsString input.
Definition ConvertBoolean (input : Node) : Result Yaml :=
  encode_Boolean <$> Node.AsBoolean input.
Definition ConvertInteger (input : Node) : Result Yaml :=
  encode_Integer <$> Node.AsInteger input.
Definition ConvertFloating (input : Node) : Result Yaml :=
  (fun rhs => YScalar (encode_Floating rhs)) <$> Node.AsFloating input.

Definition ConvertSequence (Convert : Node -> Result Yaml) (sequence : list Node) : Result Yaml :=
  YSequence <$>
    foldl (fun (output : Result (list Yaml)) element =>
             output ← output; y ← Convert element; Return (output ++ [y])%list)
          (Return []) sequence.

Definition ConvertObject (Convert : Node -> Result Yaml) (object : gmap string Node) : Result Yaml :=
  YMap <$>
    map_fold (fun field element output =>
                output ← output; y ← Convert element; Return (assign_member field y output))
             (Return []) object.

(** [switch (node.Type())]: the [default] that throws
    [DumpError("Undefined NodeType")] has no value to run on. *)
Fixpoint Convert (node : Node) : Result Yaml :=
  match node with
  | Node.Null => ConvertNull node
  | Node.String _ => ConvertString node
  | Node.Boolean _ => ConvertBoolean node
  | Node.Integer _ => ConvertInteger node
  | Node.Floating _ => ConvertFloating node
  | Node.Sequence sequence => ConvertSequence Convert sequence
  | Node.Object object => ConvertObject Convert object
  end.

(** [try { return YAML::Dump(Convert(node)); }
     catch (const YAML::Exception &error) { throw DumpError(error.what()); }] *)
Definition Dump (node : Node) : Outcome string :=
  match of_format (Convert node) with
  | Returned output =>
      match YAML_Dump output with
      | Ok text => Returned text
      | Raise what => Threw (DumpError what)
      end
  | Threw e => Threw e
  | Unspecified => Unspecified
  end.

End WithLibraries.
End module_yaml_dump.

(** ** [module/io] *)

(** The files: [path.extension()] of the standard library, and
    [File::ReadString] and [File::WriteString] of the file library, on a
    state of the file system. *)
Class FileSystem : Type := {
  files : Type;
  extension : string -> string;
  ReadString : string -> files -> Raised string;
  WriteString : string -> string -> files -> files * Raised unit
}.

Module module_io.
Section WithLibraries.
Context `{Platform} `{Nlohmann} `{YamlCpp} `{YamlEmitter} `{FileSystem}.

Definition Open_Error (message : string) : IoException :=
  OpenError (module_IoError (Message "OpenError" message)).
Definition Save_Error (message : string) : IoException :=
  SaveError (module_IoError (Message "SaveError" message)).

(** [File::ReadString(path)] as the argument of a [Parse]. *)
Definition read_then (Parse : string -> Result Node) (path : string) (fs : files)
  : Outcome Node :=
  match ReadString path fs with
  | Ok content => of_format (Parse content)
  | Raise what => Threw (File_exception what)
  end.

(** [Node Open(const std::filesystem::path &path)]. *)
Definition Open (path : string) (fs : files) : Outcome Node :=
  if String.eqb (extension path) ".json" then
    read_then module_json_parse.Parse path fs
  else if String.eqb (extension path) ".yml" || String.eqb (extension path) ".yaml" then
    read_then module_yaml_parse.Parse path fs
  else Threw (Open_Error "Undefined extension").

(** [File::WriteString(path, Dump(node))]: the text is made before the
    file is touched. *)
Definition then_write (dumped : Outcome string) (path : string) (fs : files)
  : files * Outcome unit :=
  match dumped with
  | Returned text =>
      let '(fs, r) := WriteString path text fs in
      (fs, match r with
           | Ok _ => Returned tt
           | Raise what => Threw (File_exception what)
           end)
  | Threw e => (fs, Threw e)
  | Unspecified => (fs, Unspecified)
  end.

(** [void Save(const Node &node, const std::filesystem::path &path)]. *)
Definition Save (node : Node) (path : string) (fs : files) : files * Outcome unit :=
  if String.eqb (extension path) ".json" then
    then_write (of_format (module_json_dump.Dump node)) path fs
  else if String.eqb (extension path) ".yml" || String.eqb (extension path) ".yaml" then
    then_write (module_yaml_dump.Dump node) path fs
  else (fs, Threw (Save_Error "Undefined file format")).

End WithLibraries.
End module_io.

(** ** What the YAML writer builds, and what the reader makes of it *)

(** The [YAML::Node] of a node: a map has one entry for each field, its key
    the scalar of the name, in the order in which the Object is iterated. *)
Fixpoint to_yaml `{YamlEmitter} (node : Node) : Yaml :=
  match node with
  | Node.Null => YNull
  | Node.String s => YScalar s
  | Node.Boolean b => encode_Boolean b
  | Node.Integer i => encode_Integer i
  | Node.Floating f => YScalar (encode_Floating f)
  | Node.Sequence v => YSequence (to_yaml <$> v)
  | Node.Object m =>
      YMap (map_fold (fun field element (entries : list (Yaml * Yaml)) =>
                        (entries ++ [(YScalar field, to_yaml element)])%list)
                     [] m)
  end.

(** The tree read from the YAML text of a node: every Boolean, Integer and
    Floating is the String of its text, and a Sequence or an Object without
    an element is a Null node. *)
Fixpoint as_text `{YamlEmitter} (node : Node) : Node :=
  match node with
  | Node.Boolean b => Node.String (if b then "true" else "false")
  | Node.Integer i => Node.String (pretty i)
  | Node.Floating f => Node.String (encode_Floating f)
  | Node.Sequence v =>
      match v with
      | [] => Node.Null
      | _ => Node.Sequence (as_text <$> v)
      end
  | Node.Object m =>
      if bool_decide (size m = 0%nat) then Node.Null else Node.Object (as_text <$> m)
  | _ => node
  end.

(** No key of an Object has a NUL in it. *)
Definition keys_without_NUL (node : Node) : bool :=
  match node with
  | Node.Object m => bool_decide (map_Forall (fun field _ => c_str field = field) m)
  | _ => true
  end.

(** The part of [s] after its last [c], when [c] occurs in [s]. *)
Fixpoint after_last (c : ascii) (s : string) : option string :=
  match s with
  | EmptyString => None
  | String.String c' rest =>
      match after_last c rest with
      | Some tail => Some tail
      | None => if Ascii.eqb c' c then Some rest else None
      end
  end.

(** [std::filesystem::path::extension()] on a POSIX path: in the file name,
    which is what follows the last [/], the part from the last dot on,
    where a dot that is the first character of the file name does not
    count; the file names [.] and [..] have none. *)
Definition path_extension (path : string) : string :=
  let filename := default path (after_last "/" path) in
  if String.eqb filename ".." then ""
  else match filename with
       | EmptyString => ""
       | String.String _ rest =>
           match after_last "." rest with
           | Some tail => String.String "." tail
           | None => ""
           end
       end.

(** A file system to run examples on: it holds the text last written to
    each path. *)
Definition texts_by_path : FileSystem := {|
  files := gmap string string;
  extension := path_extension;
  ReadString path fs :=
    match fs !! path with
    | Some content => Ok content
    | None => Raise "no such file"
    end;
  WriteString path content fs := (<[path := content]> fs, Ok tt)
|}.

(** Calls of yaml-cpp's emitter and what they gave: [YAML::Dump] of the
    document of the scenario. *)
Definition recorded_emitter : YamlEmitter := {|
  encode_Floating f := unrecorded;
  YAML_Dump output :=
    match output with
    | YMap [(YScalar "ports", YSequence [YScalar "8080"; YScalar "8081"])] => Ok ports_text
    | _ => Raise unrecorded
    end
|}.

(** ** What the JSON reader makes of the text of a node *)

(** An Integer is a [std::int64_t] and no key of an Object has a NUL in
    it. *)
Definition representable (node : Node) : bool :=
  match node with
  | Node.Integer i => (- 2 ^ 63 <=? i) && (i <? 2 ^ 63)
  | Node.Object m => bool_decide (map_Forall (fun field _ => c_str field = field) m)
  | _ => true
  end.

(** The tree read from the JSON text of a node: a Floating that is not
    finite, and a Sequence or an Object without an element, is a Null
    node. *)
Fixpoint as_read (node : Node) : Node :=
  match node with
  | Node.Floating f => if is_finite f then node else Node.Null
  | Node.Sequence v =>
      match v with
      | [] => Node.Null
      | _ => Node.Sequence (as_read <$> v)
      end
  | Node.Object m =>
      if bool_decide (size m = 0%nat) then Node.Null else Node.Object (as_read <$> m)
  | _ => node
  end.

(** ** The rest of [class Node] *)

(** An integral type [I] of [bits] bits, signed or unsigned, with the
    conversion from [std::int64_t] that the [return] of [To<I>] applies. *)
Definition integral (bits : Z) (signed : bool) : Node.TypeArg Z :=
  Node.IsInteger_ (fun i => if signed
                            then (i + 2 ^ (bits - 1)) mod 2 ^ bits - 2 ^ (bits - 1)
                            else i mod 2 ^ bits).

(** The values of that type. *)
Definition is_integral (bits : Z) (signed : bool) (z : Z) : Prop :=
  if signed then - 2 ^ (bits - 1) <= z < 2 ^ (bits - 1) else 0 <= z < 2 ^ bits.

(** [Node(I integer) : value_(Integer(integer))]. *)
Definition construct_Integer (integer : Z) : Node := Node.Integer (to_int64 integer).

(** The alternative of the variant that [To<T>] reads through [As<...>],
    for a type [T] with a built-in mapping. *)
Definition alternative {T} (ty : Node.TypeArg T) : option NodeType.t :=
  match ty with
  | Node.IsString_ _ => Some NodeType.String
  | Node.IsCString_ => Some NodeType.String
  | Node.IsBoolean_ _ => Some NodeType.Boolean
  | Node.IsInteger_ _ => Some NodeType.Integer
  | Node.IsFloating_ _ => Some NodeType.Floating
  | Node.IsSequence_ _ => Some NodeType.Sequence
  | Node.IsObject_ _ => Some NodeType.Object
  | Node.custom _ => None
  end.

#[global] Instance NodeType_eq_dec : EqDecision NodeType.t.
Proof. solve_decision. Defined.

(** A [ToConfig] converter applied to an input: [ToConfig()(input, node)]
    is a statement on [node]. *)
Definition ToConfig : Type := Node.Method unit.

(** [Node(const Input &input) : Node()]: the converter runs on a Null
    node. *)
Definition construct_custom (converter : ToConfig) : Result Node :=
  run converter Node.Null.

(** [Node &operator=(const Input &input)]: the converter runs on the node
    as it is. *)
Definition assign_custom (converter : ToConfig) : Node.Method unit :=
  fun self => converter self.

(** * Properties of [class Node] *)

Section NodeProperties.
Context `{Platform}.

Lemma string_app_assoc (a b c : string) : (a ++ b) ++ c = a ++ (b ++ c).
Proof.
  induction a as [|ch a IH]; [done|].
  change (String ch ((a ++ b) ++ c) = String ch (a ++ (b ++ c))). by rewrite IH.
Qed.

Lemma string_app_nil_r (a : string) : a ++ "" = a.
Proof.
  induction a as [|ch a IH]; [done|].
  change (String ch (a ++ "") = String ch a). by rewrite IH.
Qed.

Lemma Index_out_of_bounds_includes (index length : Z) :
  includes (Node.Index_out_of_bounds index length) (pretty index)
  ∧ includes (Node.Index_out_of_bounds index length) (pretty length).
Proof.
  unfold Node.Index_out_of_bounds. split.
  - exists ("Index out of bounds" ++ LF ++ "Index  : "),
           ("        " ++ LF ++ "Length : " ++ pretty length).
    by rewrite !string_app_assoc.
  - exists ("Index out of bounds" ++ LF ++ "Index  : " ++ pretty index ++ "        "
            ++ LF ++ "Length : "), "".
    by rewrite string_app_nil_r, !string_app_assoc.
Qed.

Lemma to_uint64_negative (z : Z) : - 2 ^ 63 <= z < 0 → to_uint64 z = z + 2 ^ 64.
Proof.
  intros Hz. unfold to_uint64.
  symmetry. apply (Z.mod_unique_pos _ _ (-1)); lia.
Qed.

(** [Type()] returns on every node, and [TypeString()] names what it
    returns. *)
Lemma Type_returns (n : Node) :
  ∃ T, Node.Type_ n = Return T
       ∧ Node.TypeString n
         = match T with
           | NodeType.Null => "Null"
           | NodeType.String => "String"
           | NodeType.Boolean => "Boolean"
           | NodeType.Integer => "Integer"
           | NodeType.Floating => "Floating"
           | NodeType.Sequence => "Sequence"
           | NodeType.Object => "Object"
           end.
Proof. destruct n; eexists; split; reflexivity. Qed.

Lemma subscript_on_Null {A} (k : string) (use : Node.Method A) :
  Node.subscript k use Node.Null
  = (Node.Object {[k := (use Node.Null).1]}, (use Node.Null).2).
Proof.
  unfold Node.subscript. simpl.
  rewrite lookup_empty, lookup_insert_eq. simpl.
  destruct (use Node.Null) as [child r]. simpl.
  by rewrite insert_insert_eq, insert_empty.
Qed.

(** C3, amended: the read-only [n[k]] throws the [NodeError] of [AsObject]
    when [n] is not an Object; on an Object it returns the child at [k]
    unchanged, and when [k] is absent it throws the [std::out_of_range] of
    [std::unordered_map::at], which is no [NodeError] and does not derive from
    [Config::Error]. *)
Theorem subscript_const_faults (n : Node) (k : string) :
  (Node.IsObject n = false →
     Node.subscript_const k n = Throw (Node.Conversion_failed n NodeType.Object))
  ∧ (∀ m child, n = Node.Object m → m !! k = Some child →
       Node.subscript_const k n = Return child)
  ∧ (∀ m, n = Node.Object m → m !! k = None →
       Node.subscript_const k n = Throw std_out_of_range)
  ∧ is_NodeError std_out_of_range = false
  ∧ derives_from_Error std_out_of_range = false.
Proof.
  repeat split.
  - by destruct n.
  - intros m child -> Hk. unfold Node.subscript_const. simpl. by rewrite Hk.
  - intros m -> Hk. unfold Node.subscript_const. simpl. by rewrite Hk.
Qed.

(** C4, where the code departs from it: [ValueOr<T>] is ill formed for
    every [T] that has a built-in mapping, [int] among them, since its
    [if constexpr] tests [Is<T>()], which is no constant expression there.
    So neither [Node("hi").ValueOr<int>(42)] nor [Node(42).ValueOr<int>(0)]
    is a call that returns 42, as C4 and the comment of [ValueOr] have it.
    For a [T] without a built-in mapping [Is<T>()] is false and the call,
    where the compiler accepts it, returns the default.  [Contains(k)] does
    what C4 says: it returns whether the node is an Object that has [k],
    and does not throw. *)
Theorem ValueOr_is_ill_formed `{Compiler} {T} (ty : Node.TypeArg T) (d : T)
    (k : string) (n : Node) :
  match alternative ty with
  | Some _ => Node.ValueOr ty d n = Ill_formed
  | None =>
      Node.Is ty n = false
      ∧ Node.ValueOr ty d n = if admits_this_in_constant_expressions
                              then Well_formed (Return d) else Ill_formed
  end
  ∧ Node.ValueOr Node.int 42 (Node.String "hi") = Ill_formed
  ∧ Node.ValueOr Node.int 0 (Node.Integer 42) = Ill_formed
  ∧ Node.Contains k n =
      Return (match n with
              | Node.Object m => bool_decide (is_Some (m !! k))
              | _ => false
              end).
Proof.
  split; [|split; [reflexivity|split; [reflexivity|]]].
  - destruct ty; simpl; try reflexivity.
    split; [reflexivity|]. unfold Node.ValueOr. simpl.
    by destruct admits_this_in_constant_expressions.
  - destruct n; reflexivity.
Qed.

(** C5: the mutable [n[k]] succeeds exactly when [n] is an Object or Null; a
    Null [n] becomes an Object holding [k] alone; on any other variant it
    throws the [NodeError] for a non-object node and leaves [n] as it was.
    So [root["a"]["b"] = 1] on a Null root gives an Object whose ["a"] is an
    Object whose ["b"] is Integer 1, and [Node(5)["x"]] throws. *)
Theorem subscript_autovivifies (n : Node) (k : string) :
  returns (Node.subscript k Node.read n).2 = Node.IsObject n || Node.IsNull n
  ∧ (∀ A (use : Node.Method A),
       Node.subscript k use Node.Null
       = (Node.Object {[k := (use Node.Null).1]}, (use Node.Null).2))
  ∧ (Node.IsObject n || Node.IsNull n = false →
     ∀ A (use : Node.Method A),
       Node.subscript k use n
       = (n, Throw (NodeError ("Cannot access field '" ++ k ++ "' on non-object node."))))
  ∧ run (Node.subscript "a" (Node.subscript "b" (Node.assign_Integer 1))) Node.Null
    = Return (Node.Object {[ "a" := Node.Object {[ "b" := Node.Integer 1 ]} ]})
  ∧ Node.subscript "x" Node.read (Node.Integer 5)
    = (Node.Integer 5, Throw (NodeError "Cannot access field 'x' on non-object node.")).
Proof.
  split; [|split; [|split; [|split]]].
  - by destruct n.
  - intros A use. apply subscript_on_Null.
  - intros Hn A use. by destruct n.
  - unfold run. by rewrite !subscript_on_Null.
  - reflexivity.
Qed.

(** C6: [n.Push(v)] appends [v] to a Sequence, turns a Null [n] into the
    Sequence of [v] alone, and on a String, Boolean, Integer, Floating or
    Object throws the [NodeError] for a non-sequence node, [n] unchanged. *)
Theorem Push_contract (n v : Node) :
  (∀ l, n = Node.Sequence l → Node.Push v n = (Node.Sequence (l ++ [v]), Return tt))
  ∧ Node.Push v Node.Null = (Node.Sequence [v], Return tt)
  ∧ (Node.IsSequence n || Node.IsNull n = false →
     Node.Push v n = (n, Throw (NodeError "Cannot push to non-sequence node.")))
  ∧ (returns (Node.Push v n).2 = Node.IsSequence n || Node.IsNull n).
Proof.
  repeat split.
  - by intros l ->.
  - by destruct n.
  - by destruct n.
Qed.

(** C7: on a Sequence, [SubscriptOperator] with an index below [Length()]
    gives the element at that position; with any other index it throws the
    [NodeError] whose text has the index and the length, and never reaches
    the unchecked access; on a node that is not a Sequence it throws. *)
Theorem SubscriptOperator_guarded (n : Node) (index : Z) :
  0 <= index < 2 ^ 64 →
  (∀ v, n = Node.Sequence v →
     (index < Node.Length n →
        ∃ element, v !! Z.to_nat index = Some element
                   ∧ (Node.SubscriptOperator index Node.read n).2 = Return element)
     ∧ (Node.Length n <= index →
        Node.SubscriptOperator index Node.read n
        = (n, Throw (NodeError (Node.Index_out_of_bounds index (Node.Length n))))
        ∧ includes (Node.Index_out_of_bounds index (Node.Length n)) (pretty index)
        ∧ includes (Node.Index_out_of_bounds index (Node.Length n))
                   (pretty (Node.Length n))))
  ∧ (Node.IsSequence n = false →
     Node.SubscriptOperator index Node.read n
     = (n, Throw (NodeError "Cannot access node. Node is not a sequence")))
  ∧ (Node.SubscriptOperator index Node.read n).2 ≠ Undefined.
Proof.
  intros Hindex.
  assert (Hin : ∀ v : list Node, index < Z.of_nat (length v) →
                     ∃ element, v !! Z.to_nat index = Some element).
  { intros v Hlt. apply lookup_lt_is_Some. lia. }
  split; [|split].
  - intros v ->. simpl. split.
    + intros Hlt. destruct (Hin v Hlt) as [element He].
      exists element. split; [done|].
      unfold Node.SubscriptOperator. simpl.
      destruct (Z.leb_spec (Z.of_nat (length v)) index); [lia|].
      by rewrite He.
    + intros Hge. split; [|apply Index_out_of_bounds_includes].
      unfold Node.SubscriptOperator. simpl.
      by destruct (Z.leb_spec (Z.of_nat (length v)) index); [|lia].
  - by destruct n.
  - destruct n as [| | | | |v|]; try discriminate.
    unfold Node.SubscriptOperator. simpl.
    destruct (Z.leb_spec (Z.of_nat (length v)) index) as [|Hlt]; [discriminate|].
    destruct (Hin v Hlt) as [element ->]. discriminate.
Qed.

(** C9: the mutable [n[k]] on an Object that lacks [k] does not throw: the
    reference it returns is to a Null child stored under [k], and the
    Object is one entry longer. *)
Theorem subscript_inserts_null (m : gmap string Node) (k : string) :
  m !! k = None →
  (∀ A (use : Node.Method A),
     Node.subscript k use (Node.Object m)
     = (Node.Object (<[k := (use Node.Null).1]> m), (use Node.Null).2))
  ∧ ∃ n' child,
      Node.subscript k Node.read (Node.Object m) = (n', Return child)
      ∧ Node.IsNull child = true
      ∧ Node.Contains k n' = Return true
      ∧ Node.Length n' = Node.Length (Node.Object m) + 1.
Proof.
  intros Hk.
  assert (Huse : ∀ A (use : Node.Method A),
     Node.subscript k use (Node.Object m)
     = (Node.Object (<[k := (use Node.Null).1]> m), (use Node.Null).2)).
  { intros A use. unfold Node.subscript. simpl. rewrite Hk, lookup_insert_eq. simpl.
    destruct (use Node.Null) as [child r]. simpl. by rewrite insert_insert_eq. }
  split; [done|].
  exists (Node.Object (<[k := Node.Null]> m)), Node.Null.
  split; [by rewrite Huse|]. split; [done|]. split.
  - unfold Node.Contains. simpl. rewrite lookup_insert_eq.
    by rewrite bool_decide_eq_true_2.
  - simpl. rewrite map_size_insert_None by done. lia.
Qed.

(** C10: [operator[](int)] on a Sequence with a negative index: the index
    becomes a [std::uint64_t] of at least [2^63], the bounds check fails,
    and the out-of-bounds [NodeError] is thrown. *)
Theorem negative_index_out_of_bounds (v : list Node) (index : Z) :
  is_int index → index < 0 → Node.Length (Node.Sequence v) < 2 ^ 63 →
  2 ^ 63 <= to_uint64 index
  ∧ Node.Length (Node.Sequence v) <= to_uint64 index
  ∧ Node.subscript_index index Node.read (Node.Sequence v)
    = (Node.Sequence v,
       Throw (NodeError (Node.Index_out_of_bounds (to_uint64 index)
                           (Node.Length (Node.Sequence v)))))
  ∧ Node.subscript_index_const index (Node.Sequence v)
    = Throw (NodeError (Node.Index_out_of_bounds (to_uint64 index)
                          (Node.Length (Node.Sequence v)))).
Proof.
  unfold is_int. intros Hint Hneg Hlen.
  assert (Hu : to_uint64 index = index + 2 ^ 64) by (apply to_uint64_negative; lia).
  assert (Hge : Node.Length (Node.Sequence v) <= to_uint64 index) by lia.
  assert (Hthrow : Node.subscript_index index Node.read (Node.Sequence v)
    = (Node.Sequence v,
       Throw (NodeError (Node.Index_out_of_bounds (to_uint64 index)
                           (Node.Length (Node.Sequence v)))))).
  { unfold Node.subscript_index, Node.SubscriptOperator.
    cbn [Node.IsSequence negb].
    by destruct (Z.leb_spec (Node.Length (Node.Sequence v)) (to_uint64 index)); [|lia]. }
  split; [lia|]. split; [done|]. split; [done|].
  unfold Node.subscript_index_const. unfold Node.subscript_index in Hthrow.
  by rewrite Hthrow.
Qed.

End NodeProperties.

Lemma SubscriptOperator_guarded_witness :
  0 <= 5 < 2 ^ 64
  ∧ @Node.SubscriptOperator gcc _ 5 Node.read (Node.Sequence [Node.Integer 7])
    = (Node.Sequence [Node.Integer 7],
       Throw (NodeError (Node.Index_out_of_bounds 5 1))).
Proof.
  assert (Hindex : 0 <= 5 < 2 ^ 64) by lia.
  split; [exact Hindex|].
  destruct (@SubscriptOperator_guarded gcc (Node.Sequence [Node.Integer 7]) 5 Hindex)
    as [Hseq _].
  destruct (Hseq _ eq_refl) as [_ Hge].
  apply Hge. simpl. lia.
Defined.

Lemma subscript_inserts_null_witness :
  ({[ "host" := Node.String "localhost" ]} : gmap string Node) !! "port" = None
  ∧ @Node.subscript gcc _ "port" Node.read
      (Node.Object {[ "host" := Node.String "localhost" ]})
    = (Node.Object (<[ "port" := Node.Null ]> {[ "host" := Node.String "localhost" ]}),
       Return Node.Null).
Proof.
  assert (Hk : ({[ "host" := Node.String "localhost" ]} : gmap string Node) !! "port" = None)
    by reflexivity.
  split; [exact Hk|].
  destruct (@subscript_inserts_null gcc _ "port" Hk) as [Huse _].
  apply (Huse _ Node.read).
Defined.

Lemma negative_index_out_of_bounds_witness :
  is_int (-1) ∧ -1 < 0 ∧ Node.Length (Node.Sequence [Node.Integer 7]) < 2 ^ 63
  ∧ @Node.subscript_index_const gcc (-1) (Node.Sequence [Node.Integer 7])
    = Throw (NodeError (Node.Index_out_of_bounds 18446744073709551615 1)).
Proof.
  assert (Hint : is_int (-1)) by (unfold is_int; lia).
  assert (Hneg : -1 < 0) by lia.
  assert (Hlen : Node.Length (Node.Sequence [Node.Integer 7]) < 2 ^ 63) by (simpl; lia).
  split; [exact Hint|]. split; [exact Hneg|]. split; [exact Hlen|].
  destruct (@negative_index_out_of_bounds gcc [Node.Integer 7] (-1) Hint Hneg Hlen)
    as (_ & _ & _ & Hconst).
  exact Hconst.
Defined.

(** C3 as the specification states it fails on an empty Object: the fault
    for the absent key is [std::out_of_range], and no exception deriving
    from [Config::Error] is thrown. *)
Lemma subscript_const_missing_key_outside_Error :
  @Node.subscript_const gcc "port" (Node.Object ∅) = Throw std_out_of_range
  ∧ ¬ ∃ e, @Node.subscript_const gcc "port" (Node.Object ∅) = Throw e
           ∧ derives_from_Error e = true.
Proof.
  split; [reflexivity|].
  intros (e & He & Hd).
  assert (e = std_out_of_range) as -> by (vm_compute in He; congruence).
  discriminate.
Qed.

(** * Induction on JSON values *)

Lemma foldr_sum_elem_of {A} (f : A → nat) (l : list A) (x : A) :
  x ∈ l → (f x ≤ foldr (fun y rest => f y + rest) 0 l)%nat.
Proof.
  induction l as [|y l IH]; intros Hx.
  - by apply elem_of_nil in Hx.
  - apply elem_of_cons in Hx as [->|Hx]; simpl; [lia|].
    specialize (IH Hx). lia.
Qed.

Lemma map_fold_sum_lookup {A} (f : A → nat) (m : gmap string A) (k : string) (x : A) :
  m !! k = Some x → (f x ≤ map_fold (fun _ y rest => f y + rest) 0 m)%nat.
Proof.
  induction m as [|i y m Hi Hfirst IH] using map_first_key_ind; intros Hk.
  - by rewrite lookup_empty in Hk.
  - rewrite map_fold_insert_first_key by done.
    destruct (decide (i = k)) as [->|Hne].
    + rewrite lookup_insert_eq in Hk. injection Hk as ->. lia.
    + rewrite lookup_insert_ne in Hk by done. specialize (IH Hk). lia.
Qed.

Lemma Json_induction (P : Json → Prop) :
  (∀ elements, Forall P elements → P (Jarray elements)) →
  (∀ members, map_Forall (fun _ element => P element) members → P (Jobject members)) →
  (∀ input, (∀ elements, input ≠ Jarray elements) →
            (∀ members, input ≠ Jobject members) → P input) →
  ∀ input, P input.
Proof.
  intros Harray Hobject Hleaf input.
  remember (Json_size input) as n eqn:Hn.
  revert input Hn. induction n as [n IH] using lt_wf_ind. intros input ->.
  destruct input as [|members|elements| | | | | | |];
    try (apply Hleaf; intros; discriminate).
  - apply Hobject. intros k element Hk.
    apply (IH (Json_size element)); [|done]. simpl.
    pose proof (map_fold_sum_lookup Json_size members k element Hk). lia.
  - apply Harray. apply Forall_forall. intros element He.
    apply (IH (Json_size element)); [|done]. simpl.
    pose proof (foldr_sum_elem_of Json_size elements element He). lia.
Qed.

(** * Properties of the JSON codecs *)

Section JsonProperties.
Context `{Platform} `{Nlohmann}.

(** The [Convert] of [module/.../parse.cc] returns a node on every JSON
    value: none of its steps can throw. *)
Lemma module_Convert_returns (input : Json) :
  ∃ node, module_json_parse.Convert input = Return node.
Proof.
  induction input as [elements IH|members IH|input Harray Hobject] using Json_induction.
  - simpl. unfold module_json_parse.ConvertSequence.
    assert (Hfold : ∀ acc : Result Node,
      acc = Return Node.Null ∨ (∃ v, acc = Return (Node.Sequence v)) →
      let r := foldl (fun output element =>
           output ← output; node ← module_json_parse.Convert element;
           run (Node.Push node) output) acc elements in
      r = Return Node.Null ∨ (∃ v, r = Return (Node.Sequence v))).
    { induction IH as [|element elements [node Hnode] _ IHl]; intros acc Hacc; [done|].
      simpl. apply IHl. right.
      destruct Hacc as [->|[v ->]]; simpl; rewrite Hnode; simpl; eexists; reflexivity. }
    destruct (Hfold (Return Node.Null)) as [->|[v ->]]; eauto.
  - simpl. unfold module_json_parse.ConvertObject.
    assert (Hfold :
      let r := map_fold (fun field element output =>
              output ← output; node ← module_json_parse.Convert element;
              run (Node.subscript_string field (Node.assign node)) output)
           (Return Node.Null) members in
      r = Return Node.Null ∨ (∃ m, r = Return (Node.Object m))).
    { induction members as [|field element members Hfresh Hfirst IHm] using map_first_key_ind.
      - left. by rewrite map_fold_empty.
      - right. simpl. rewrite map_fold_insert_first_key by done.
        apply map_Forall_insert in IH as [[node Hnode] IH]; [|done].
        destruct (IHm IH) as [->|[m ->]]; simpl; rewrite Hnode; simpl.
        + unfold run, Node.subscript_string. rewrite subscript_on_Null.
          eexists; reflexivity.
        + unfold run, Node.subscript_string, Node.subscript. simpl.
          eexists; reflexivity. }
    destruct Hfold as [->|[m ->]]; eauto.
  - destruct input; simpl; eauto.
    + by destruct (Hobject members).
    + by destruct (Harray elements).
Qed.

(** On a JSON value that a text can denote the two [Convert] are the same
    function. *)
Lemma Convert_same_in_mapping (input : Json) :
  in_mapping input = true →
  sources_json_parse.Convert input = module_json_parse.Convert input.
Proof.
  induction input as [elements IH|members IH|input Harray Hobject] using Json_induction;
    intros Hin.
  - simpl in *. unfold sources_json_parse.ConvertSequence, module_json_parse.ConvertSequence.
    generalize (Return Node.Null : Result Node) as acc.
    induction IH as [|element elements Helement _ IHl]; intros acc; [done|].
    simpl in Hin. apply andb_true_iff in Hin as [Hin1 Hin2].
    simpl. rewrite (Helement Hin1). by apply IHl.
  - simpl in *. unfold sources_json_parse.ConvertObject, module_json_parse.ConvertObject.
    induction members as [|field element members Hfresh Hfirst IHm] using map_first_key_ind.
    + by rewrite !map_fold_empty.
    + rewrite map_fold_insert_first_key in Hin by done.
      apply andb_true_iff in Hin as [Hin1 Hin2].
      apply map_Forall_insert in IH as [Helement IH]; [|done].
      rewrite !map_fold_insert_first_key by done.
      by rewrite (IHm IH Hin2), (Helement Hin1).
  - destruct input; try reflexivity; try discriminate.
    + by destruct (Hobject members).
    + by destruct (Harray elements).
Qed.

(** C8: the two [Parse] agree on every text, both returning the same tree
    or both throwing [ParseError].  [json::parse] gives a text a value of
    the eight mapped types only: it builds no binary value from a text, and
    it throws on a malformed text where it could return a discarded value.
    The [default] branches of the two [Convert], which differ, are
    therefore not reached from [Parse]. *)
Theorem Parse_agree_on_every_text :
  (∀ content input, json_parse content = Ok input → in_mapping input = true) →
  ∀ content,
    agree (module_json_parse.Parse content) (sources_json_parse.Parse content).
Proof.
  intros Hmapped content.
  unfold module_json_parse.Parse, sources_json_parse.Parse.
  destruct (json_parse content) as [input|what] eqn:Hparse; simpl; [|done].
  rewrite (Convert_same_in_mapping input) by by apply (Hmapped content).
  by destruct (module_Convert_returns input) as [node ->].
Qed.

(** The case that [ConvertSequence] of [parse.cc] misses: its [output]
    starts as a Null node and only [Push] makes it a Sequence.  When the
    library prints the empty array as a text that it parses back to the
    empty array, [Dump] of the empty Sequence returns that text and [Parse]
    of it returns a Null node. *)
Theorem roundtrip_of_empty_Sequence_is_Null (text : string) :
  json_dump (Jarray []) 4 = Ok text →
  json_parse text = Ok (Jarray []) →
  module_json_dump.Dump (Node.Sequence []) = Return text
  ∧ module_json_parse.Parse text = Return Node.Null
  ∧ module_json_parse.Parse text ≠ Return (Node.Sequence []).
Proof.
  intros Hdump Hparse.
  unfold module_json_dump.Dump, module_json_parse.Parse. simpl.
  rewrite Hdump, Hparse. simpl. done.
Qed.

End JsonProperties.

Lemma recorded_nlohmann_in_mapping (content : string) (input : Json) :
  @json_parse recorded_nlohmann content = Ok input → in_mapping input = true.
Proof.
  simpl. repeat case_match; intros Hinput; try discriminate;
    by injection Hinput as <-.
Qed.

Lemma Parse_agree_on_every_text_witness :
  (∀ content input, @json_parse recorded_nlohmann content = Ok input →
                    in_mapping input = true)
  ∧ agree (@module_json_parse.Parse gcc recorded_nlohmann printed_ports)
          (@sources_json_parse.Parse gcc recorded_nlohmann printed_ports)
  ∧ @module_json_parse.Parse gcc recorded_nlohmann printed_ports
    = Return (Node.Sequence [Node.Integer 8080; Node.Integer 8081]).
Proof.
  split; [exact recorded_nlohmann_in_mapping|].
  split; [|reflexivity].
  exact (@Parse_agree_on_every_text gcc recorded_nlohmann
           recorded_nlohmann_in_mapping printed_ports).
Defined.

(** The [default] branches of the two [Convert] are written differently:
    on a binary value, which no text denotes, the [Convert] of [module/]
    returns a Null node and the [Convert] of [sources/] throws
    [ParseError]. *)
Remark Convert_differ_on_binary :
  @module_json_parse.Convert gcc recorded_nlohmann (Jbinary []) = Return Node.Null
  ∧ @sources_json_parse.Convert gcc recorded_nlohmann (Jbinary [])
    = Throw (JsonFormat_ParseError "Undefined JsonType (8)").
Proof. split; reflexivity. Qed.

Lemma roundtrip_of_empty_Sequence_is_Null_witness :
  @json_dump recorded_nlohmann (Jarray []) 4 = Ok "[]"
  ∧ @json_parse recorded_nlohmann "[]" = Ok (Jarray [])
  ∧ @module_json_dump.Dump gcc recorded_nlohmann (Node.Sequence []) = Return "[]"
  ∧ @module_json_parse.Parse gcc recorded_nlohmann "[]" = Return Node.Null.
Proof.
  assert (Hdump : @json_dump recorded_nlohmann (Jarray []) 4 = Ok "[]")
    by reflexivity.
  assert (Hparse : @json_parse recorded_nlohmann "[]" = Ok (Jarray []))
    by reflexivity.
  split; [exact Hdump|]. split; [exact Hparse|].
  destruct (@roundtrip_of_empty_Sequence_is_Null gcc recorded_nlohmann "[]"
              Hdump Hparse) as (HDump & HParse & _).
  split; [exact HDump | exact HParse].
Defined.

(** * Properties of the YAML codec *)

Section YamlProperties.
Context `{Platform} `{YamlCpp}.

(** [ConvertScalar] returns a String node holding the text of the scalar,
    whatever the text: [as<std::string>] does not throw on a scalar, so the
    handlers that try Integer, Floating and Boolean never run. *)
Lemma ConvertScalar_is_String (scalar : string) :
  module_yaml_parse.ConvertScalar (YScalar scalar) = Return (Node.String scalar).
Proof. reflexivity. Qed.

Lemma Convert_ports_document :
  module_yaml_parse.Convert ports_document
  = Return (Node.Object
              {[ "ports" := Node.Sequence [Node.String "8080"; Node.String "8081"] ]}).
Proof.
  unfold ports_document. cbn -[Node.subscript]. unfold run, Node.subscript_string.
  by rewrite subscript_on_Null.
Qed.

(** [Parse] of a text is [Convert] of the document that [YAML::Load] reads,
    when [Convert] returns. *)
Lemma Parse_of_loaded (text : string) (document : Yaml) (node : Node) :
  Load text = Ok document →
  module_yaml_parse.Convert document = Return node →
  module_yaml_parse.Parse text = Return node.
Proof.
  intros Hload HConvert. unfold module_yaml_parse.Parse. rewrite Hload. simpl of_yaml.
  change (input ← Return document; module_yaml_parse.Convert input)
    with (module_yaml_parse.Convert document).
  by rewrite HConvert.
Qed.

(** C1 at its failing input: a scalar that is lexically an integer, as
    [8080] and [8081] are, becomes a String node and not an Integer node,
    so [Convert] of the document [ports: [8080, 8081]], hence [Parse] of a
    text that [YAML::Load] reads as this document, returns an Object whose
    ["ports"] is a Sequence of the two String nodes ["8080"] and ["8081"]. *)
Theorem yaml_ports_are_Strings :
  lexically_integer "8080" = true
  ∧ lexically_integer "8081" = true
  ∧ (∀ scalar, module_yaml_parse.Convert (YScalar scalar) = Return (Node.String scalar))
  ∧ module_yaml_parse.Convert ports_document
    = Return (Node.Object
                {[ "ports" := Node.Sequence [Node.String "8080"; Node.String "8081"] ]})
  ∧ ∀ text, Load text = Ok ports_document →
      module_yaml_parse.Parse text
      = Return (Node.Object
                  {[ "ports" := Node.Sequence [Node.String "8080"; Node.String "8081"] ]}).
Proof.
  split; [reflexivity|]. split; [reflexivity|].
  split; [intros scalar; apply ConvertScalar_is_String|].
  split; [apply Convert_ports_document|].
  intros text Hload. apply (Parse_of_loaded text ports_document); [done|].
  apply Convert_ports_document.
Qed.

End YamlProperties.

(** The scenario on yaml-cpp's reading of the text, with a yaml-cpp that
    converts the two scalars to the integers 8080 and 8081 when asked. *)
Example yaml_ports_scenario :
  @as_Integer recorded_yaml_cpp (YScalar "8080") = Ok 8080
  ∧ @module_yaml_parse.Parse gcc recorded_yaml_cpp ports_text
    = Return (Node.Object
                {[ "ports" := Node.Sequence [Node.String "8080"; Node.String "8081"] ]}).
Proof.
  split; [reflexivity|].
  apply (@Parse_of_loaded gcc recorded_yaml_cpp ports_text ports_document); [reflexivity|].
  apply Convert_ports_document.
Qed.

(** * The JSON round trip *)

Section Roundtrip.
Context `{Platform} `{Nlohmann}.

Lemma Node_induction (P : Node → Prop) :
  (∀ v, Forall P v → P (Node.Sequence v)) →
  (∀ m, map_Forall (fun _ element => P element) m → P (Node.Object m)) →
  (∀ node, Node.IsSequence node = false → Node.IsObject node = false → P node) →
  ∀ node, P node.
Proof.
  intros Hsequence Hobject Hleaf node.
  remember (Node_size node) as n eqn:Hn.
  revert node Hn. induction n as [n IH] using lt_wf_ind. intros node ->.
  destruct node as [| | | | |v|m]; try (by apply Hleaf).
  - apply Hsequence. apply Forall_forall. intros element He.
    apply (IH (Node_size element)); [|done]. simpl.
    pose proof (foldr_sum_elem_of Node_size v element He). lia.
  - apply Hobject. intros k element Hk.
    apply (IH (Node_size element)); [|done]. simpl.
    pose proof (map_fold_sum_lookup Node_size m k element Hk). lia.
Qed.

(** [Convert] of [dump.cc] returns on every node. *)
Lemma dump_Convert_to_json (node : Node) :
  module_json_dump.Convert node = Return (to_json node).
Proof.
  induction node as [v IH|m IH|node Hsequence Hobject] using Node_induction.
  - simpl. unfold module_json_dump.ConvertSequence.
    assert (Hfold : ∀ done_,
      foldl (fun output element =>
           output ← output; j ← module_json_dump.Convert element; push_back j output)
        (Return (Jarray done_)) v = Return (Jarray (done_ ++ (to_json <$> v)))).
    { induction IH as [|element v Helement _ IHv]; intros done_; simpl.
      - by rewrite app_nil_r.
      - rewrite Helement. simpl. rewrite IHv. by rewrite <- app_assoc. }
    apply Hfold.
  - simpl. unfold module_json_dump.ConvertObject.
    induction m as [|field element m Hfresh Hfirst IHm] using map_first_key_ind.
    + by rewrite map_fold_empty, fmap_empty.
    + apply map_Forall_insert in IH as [Helement IH]; [|done].
      rewrite map_fold_insert_first_key by done.
      rewrite (IHm IH), Helement. simpl. by rewrite fmap_insert.
  - by destruct node.
Qed.

Lemma run_subscript_assign (field : string) (node : Node) (m : gmap string Node) :
  run (Node.subscript field (Node.assign node))
      (if bool_decide (size m = 0%nat) then Node.Null else Node.Object m)
  = Return (Node.Object (<[field := node]> m)).
Proof.
  unfold run. case_bool_decide as Hm.
  - apply map_size_empty_iff in Hm as ->. rewrite subscript_on_Null. simpl.
    by rewrite insert_empty.
  - unfold Node.subscript. simpl. destruct (m !! field); simpl.
    + done.
    + by rewrite insert_insert_eq.
Qed.

(** [Convert] of [parse.cc] on what the library reads back. *)
Lemma parse_Convert_read_back (node : Node) :
  Node_all faithful_in_json node = true →
  module_json_parse.Convert (read_back (to_json node)) = Return node.
Proof.
  induction node as [v IH|m IH|node Hsequence Hobject] using Node_induction;
    intros Hall.
  - simpl in Hall. apply andb_true_iff in Hall as [Hne Hall].
    simpl. unfold module_json_parse.ConvertSequence.
    assert (Hfold : ∀ (l : list Node) (done_ : list Node),
      Forall (fun node => Node_all faithful_in_json node = true →
                module_json_parse.Convert (read_back (to_json node)) = Return node) l →
      forallb (Node_all faithful_in_json) l = true →
      foldl (fun output element =>
           output ← output; node ← module_json_parse.Convert element;
           run (Node.Push node) output)
        (Return (Node.Sequence done_)) (read_back <$> (to_json <$> l))
      = Return (Node.Sequence (done_ ++ l))).
    { clear. intros l done_ Hl. revert done_.
      induction Hl as [|element l Helement _ IHl]; intros done_ Hall; simpl.
      - by rewrite app_nil_r.
      - simpl in Hall. apply andb_true_iff in Hall as [He Hall].
        rewrite (Helement He). simpl. unfold run at 2. simpl.
        rewrite (IHl _ Hall). by rewrite <- app_assoc. }
    destruct v as [|element v]; [done|].
    simpl in Hall. apply andb_true_iff in Hall as [He Hv].
    apply Forall_cons in IH as [Helement IH].
    simpl. rewrite (Helement He). simpl. unfold run at 2. simpl.
    by apply (Hfold v [element]).
  - simpl in Hall. apply andb_true_iff in Hall as [Hlocal Hall].
    apply andb_true_iff in Hlocal as [Hne Hkeys].
    apply negb_true_iff, bool_decide_eq_false in Hne.
    apply bool_decide_eq_true in Hkeys.
    simpl. unfold module_json_parse.ConvertObject.
    rewrite <- map_fmap_compose, map_fold_fmap.
    assert (Hfold :
      map_Forall (fun field _ => c_str field = field) m →
      map_fold (fun field element rest => Node_all faithful_in_json element && rest) true m
        = true →
      map_fold (fun field => (fun element output =>
              output ← output; node ← module_json_parse.Convert element;
              run (Node.subscript_string field (Node.assign node)) output)
                ∘ (read_back ∘ to_json))
           (Return Node.Null) m
      = Return (if bool_decide (size m = 0%nat) then Node.Null else Node.Object m)).
    { clear Hne Hall Hkeys.
      induction m as [|field element m Hfresh Hfirst IHm] using map_first_key_ind;
        intros Hkeys Hm.
      - by rewrite map_fold_empty.
      - rewrite map_fold_insert_first_key in Hm by done.
        apply andb_true_iff in Hm as [He Hm].
        apply map_Forall_insert in IH as [Helement IH]; [|done].
        apply map_Forall_insert in Hkeys as [Hfield Hkeys]; [|done].
        rewrite map_fold_insert_first_key by done.
        rewrite (IHm IH Hkeys Hm). simpl. rewrite (Helement He). simpl.
        unfold Node.subscript_string. rewrite Hfield, run_subscript_assign.
        rewrite bool_decide_eq_false_2; [done|].
        rewrite map_size_insert_None by done. lia. }
    rewrite (Hfold Hkeys Hall). by rewrite bool_decide_eq_false_2.
  - destruct node as [| | |i|f| |]; try done; simpl in Hall.
    + rewrite andb_true_r in Hall. apply andb_true_iff in Hall as [Hlo Hhi].
      apply Z.leb_le in Hlo. apply Z.ltb_lt in Hhi.
      simpl. destruct (Z.leb_spec 0 i); [|done].
      change (Return (Node.Integer (to_int64 i)) = Return (Node.Integer i)).
      assert (to_int64 i = i) as ->; [|done].
      unfold to_int64. rewrite Z.mod_small; lia.
    + rewrite andb_true_r in Hall. simpl. by rewrite Hall.
Qed.

(** C2, amended: for a tree in which every Integer is a [std::int64_t],
    every Floating is finite and every Sequence and Object has an element,
    when the library prints the JSON value of the tree to a text that it
    reads back, [Dump] returns that text and [Parse] of it returns the
    tree. *)
Theorem json_roundtrip (node : Node) (text : string) :
  Node_all faithful_in_json node = true →
  (∀ output, module_json_dump.Convert node = Return output →
             json_dump output 4 = Ok text ∧ json_parse text = Ok (read_back output)) →
  module_json_dump.Dump node = Return text
  ∧ module_json_parse.Parse text = Return node
  ∧ Parse_Dump node = Return node.
Proof.
  intros Hall Hlibrary.
  destruct (Hlibrary _ (dump_Convert_to_json node)) as [Hdump Hparse].
  assert (HDump : module_json_dump.Dump node = Return text).
  { unfold module_json_dump.Dump. rewrite dump_Convert_to_json. simpl. by rewrite Hdump. }
  assert (HParse : module_json_parse.Parse text = Return node).
  { unfold module_json_parse.Parse. rewrite Hparse. simpl.
    by rewrite parse_Convert_read_back. }
  split; [done|]. split; [done|].
  unfold Parse_Dump. rewrite HDump. simpl. exact HParse.
Qed.

End Roundtrip.

Lemma json_roundtrip_witness :
  Node_all faithful_in_json (Node.Sequence [Node.Integer 8080; Node.Integer 8081]) = true
  ∧ (∀ output,
       @module_json_dump.Convert gcc
         (Node.Sequence [Node.Integer 8080; Node.Integer 8081]) = Return output →
       @json_dump recorded_nlohmann output 4 = Ok printed_ports
       ∧ @json_parse recorded_nlohmann printed_ports = Ok (read_back output))
  ∧ @Parse_Dump gcc recorded_nlohmann (Node.Sequence [Node.Integer 8080; Node.Integer 8081])
    = Return (Node.Sequence [Node.Integer 8080; Node.Integer 8081]).
Proof.
  assert (Hall : Node_all faithful_in_json
                   (Node.Sequence [Node.Integer 8080; Node.Integer 8081]) = true)
    by reflexivity.
  assert (Hlibrary : ∀ output,
       @module_json_dump.Convert gcc
         (Node.Sequence [Node.Integer 8080; Node.Integer 8081]) = Return output →
       @json_dump recorded_nlohmann output 4 = Ok printed_ports
       ∧ @json_parse recorded_nlohmann printed_ports = Ok (read_back output)).
  { intros output Houtput. injection Houtput as <-. split; reflexivity. }
  split; [exact Hall|]. split; [exact Hlibrary|].
  exact (proj2 (proj2 (@json_roundtrip gcc recorded_nlohmann _ _ Hall Hlibrary))).
Defined.

(** C2 as the specification states it fails on a NaN, which the library
    prints as [null], so that [Parse(Dump(n))] is a Null node, and on a
    String that is not UTF-8, which the library refuses to print, so that
    [Dump] throws [DumpError]. *)
Lemma roundtrip_fails_on_nan_and_invalid_utf8 :
  @Parse_Dump gcc recorded_nlohmann (Node.Floating nan) = Return Node.Null
  ∧ @Parse_Dump gcc recorded_nlohmann (Node.String invalid_utf8)
    = Throw (JsonFormat_DumpError
               ("Config::JsonError::DumpError: "
                ++ "[json.exception.type_error.316] invalid UTF-8 byte at index 0: 0xFF"))
  ∧ ¬ (∀ node, @Parse_Dump gcc recorded_nlohmann node = Return node).
Proof.
  split; [reflexivity|]. split; [reflexivity|].
  intros Hclaim. specialize (Hclaim (Node.Floating nan)). discriminate.
Qed.

(** * More properties of [class Node] *)

Section NodeMore.
Context `{Platform}.

(** [To<T>()] for [std::string], [std::string_view], an integral type
    other than [bool], a floating-point type, the sequence and the object
    type returns the value held, converted, exactly when [Is<T>()] holds,
    and otherwise throws the [NodeError] of [As] that names the variant
    held.  [To<bool>()] and [To<const char *>()] are ill formed, although
    [Is<T>()] is not.  For a type without a built-in mapping [Is<T>()] is
    false. *)
Theorem To_returns_exactly_when_Is {T} (ty : Node.TypeArg T) (n : Node) :
  match ty with
  | Node.custom _ => Node.Is ty n = false
  | Node.IsBoolean_ _ => Node.To ty n = Ill_formed ∧ Node.Is ty n = Node.IsBoolean n
  | Node.IsCString_ => Node.To ty n = Ill_formed ∧ Node.Is ty n = Node.IsString n
  | _ =>
      ∃ alt, alternative ty = Some alt
        ∧ Node.To ty n = Well_formed (match held ty n with
                                      | Some value => Return value
                                      | None => Throw (Node.Conversion_failed n alt)
                                      end)
        ∧ Node.Is ty n = bool_decide (is_Some (held ty n))
        ∧ includes (match Node.Conversion_failed n alt with
                    | NodeError what => what
                    | _ => ""
                    end) (Node.TypeString n)
  end.
Proof.
  destruct ty; simpl; try done;
    (eexists; split; [reflexivity|]; split; [by destruct n|]; split; [by destruct n|]);
    unfold includes; do 2 eexists; reflexivity.
Qed.

(** [Type()] returns on every node, the alternative that the [Is...]
    predicates report, and [TypeString()] is its name: the [NodeError] of
    [Type()] and the name ["Undefined"] are never produced. *)
Theorem Type_agrees_with_predicates (n : Node) :
  ∃ T, Node.Type_ n = Return T
       ∧ Node.IsNull n = bool_decide (T = NodeType.Null)
       ∧ Node.IsString n = bool_decide (T = NodeType.String)
       ∧ Node.IsBoolean n = bool_decide (T = NodeType.Boolean)
       ∧ Node.IsInteger n = bool_decide (T = NodeType.Integer)
       ∧ Node.IsFloating n = bool_decide (T = NodeType.Floating)
       ∧ Node.IsSequence n = bool_decide (T = NodeType.Sequence)
       ∧ Node.IsObject n = bool_decide (T = NodeType.Object)
       ∧ Node.TypeString n ≠ "Undefined".
Proof. destruct n; eexists; (split; [reflexivity|]); by repeat split. Qed.

Lemma index_const_in_range (l : list Node) (i : nat) (element : Node) :
  l !! i = Some element → Z.of_nat i < 2 ^ 64 →
  Node.subscript_index_const (Z.of_nat i) (Node.Sequence l) = Return element.
Proof.
  intros Hi Hsmall. pose proof (lookup_lt_Some _ _ _ Hi) as Hlt.
  unfold Node.subscript_index_const, Node.SubscriptOperator, to_uint64.
  rewrite Z.mod_small by lia. simpl.
  destruct (Z.leb_spec (Z.of_nat (length l)) (Z.of_nat i)); [lia|].
  rewrite Nat2Z.id, Hi. reflexivity.
Qed.

(** After [Push(v)] on a Sequence, [Length()] is one more, the new last
    index reads [v], and every earlier index reads what it read before. *)
Theorem Push_then_index (l : list Node) (v : Node) :
  Node.Length (Node.Sequence l) < 2 ^ 31 →
  ∃ n', Node.Push v (Node.Sequence l) = (n', Return tt)
        ∧ Node.Length n' = Node.Length (Node.Sequence l) + 1
        ∧ Node.subscript_index_const (Node.Length (Node.Sequence l)) n' = Return v
        ∧ ∀ (i : nat) element,
            l !! i = Some element →
            Node.subscript_index_const (Z.of_nat i) n' = Return element
            ∧ Node.subscript_index_const (Z.of_nat i) (Node.Sequence l) = Return element.
Proof.
  simpl. intros Hlen. exists (Node.Sequence (l ++ [v])).
  split; [reflexivity|]. split; [simpl; rewrite length_app; simpl; lia|]. split.
  - apply index_const_in_range; [|lia].
    rewrite lookup_app_r by lia. by rewrite Nat.sub_diag.
  - intros i element Hi. pose proof (lookup_lt_Some _ _ _ Hi) as Hlt.
    split; apply index_const_in_range; try lia; [|done].
    by rewrite lookup_app_l.
Qed.

(** [n[index] = v] through the mutable [operator[](int)] on a Sequence:
    within bounds it replaces that one element, and the length and the other
    elements stay; out of bounds it throws and the Sequence is as it was. *)
Theorem index_assignment (l : list Node) (index : Z) (v : Node) :
  0 <= index < 2 ^ 31 →
  if index <? Node.Length (Node.Sequence l) then
    Node.subscript_index index (Node.assign v) (Node.Sequence l)
    = (Node.Sequence (<[Z.to_nat index := v]> l), Return tt)
    ∧ Node.Length (Node.Sequence (<[Z.to_nat index := v]> l))
      = Node.Length (Node.Sequence l)
    ∧ Node.subscript_index_const index (Node.Sequence (<[Z.to_nat index := v]> l))
      = Return v
    ∧ ∀ (j : nat) element,
        Z.of_nat j ≠ index → Z.of_nat j < 2 ^ 31 → l !! j = Some element →
        Node.subscript_index_const (Z.of_nat j) (Node.Sequence (<[Z.to_nat index := v]> l))
        = Return element
  else
    Node.subscript_index index (Node.assign v) (Node.Sequence l)
    = (Node.Sequence l,
       Throw (NodeError (Node.Index_out_of_bounds index (Node.Length (Node.Sequence l))))).
Proof.
  intros Hindex. simpl.
  unfold Node.subscript_index, Node.SubscriptOperator, to_uint64.
  rewrite Z.mod_small by lia. simpl.
  destruct (Z.ltb_spec index (Z.of_nat (length l))) as [Hlt|Hge];
    destruct (Z.leb_spec (Z.of_nat (length l)) index) as [Hle|Hlt']; try lia; [|done].
  assert (Hin : (Z.to_nat index < length l)%nat) by lia.
  destruct (lookup_lt_is_Some_2 l _ Hin) as [old Hold]. rewrite Hold. simpl.
  split; [done|]. split; [by rewrite length_insert|]. split.
  - rewrite <- (Z2Nat.id index) at 1 by lia.
    apply index_const_in_range; [|lia]. by apply list_lookup_insert_eq.
  - intros j element Hj Hint Hlookup. pose proof (lookup_lt_Some _ _ _ Hlookup).
    apply index_const_in_range; [|lia].
    rewrite list_lookup_insert_ne by lia. done.
Qed.

(** [n[k] = v] through the mutable [operator[]] for a [const char *field],
    on an Object or a Null node: afterwards the read-only [n[k]] returns [v] and
    [Contains(k)] holds, every other key reads as before, and [Length()] has
    grown by one exactly when [k] was absent. *)
Theorem field_assignment_then_lookup (n : Node) (k : string) (v : Node) :
  Node.IsObject n || Node.IsNull n = true →
  ∃ n', Node.subscript k (Node.assign v) n = (n', Return tt)
        ∧ Node.subscript_const k n' = Return v
        ∧ Node.Contains k n' = Return true
        ∧ (∀ k', k' ≠ k →
             Node.Contains k' n' = Node.Contains k' n
             ∧ (Node.IsObject n = true →
                Node.subscript_const k' n' = Node.subscript_const k' n))
        ∧ Node.Length n'
          = Node.Length n + match Node.Contains k n with Return true => 0 | _ => 1 end.
Proof.
  intros Hn.
  assert (Hobject : ∀ m : gmap string Node,
    Node.subscript k (Node.assign v) (Node.Object m)
    = (Node.Object (<[k := v]> m), Return tt)).
  { intros m. unfold Node.subscript. simpl.
    destruct (m !! k); simpl; [done|]. by rewrite insert_insert_eq. }
  assert (Hlookup : ∀ m : gmap string Node,
    Node.subscript_const k (Node.Object (<[k := v]> m)) = Return v
    ∧ Node.Contains k (Node.Object (<[k := v]> m)) = Return true).
  { intros m. unfold Node.subscript_const, Node.Contains. simpl.
    rewrite lookup_insert_eq. by rewrite bool_decide_eq_true_2. }
  destruct n as [| | | | | |m]; try discriminate.
  - exists (Node.Object {[k := v]}).
    split; [by rewrite subscript_on_Null|].
    destruct (Hlookup ∅) as [Hget Hhas]. rewrite insert_empty in Hget, Hhas.
    split; [done|]. split; [done|]. split.
    + intros k' Hk'. split; [|discriminate].
      unfold Node.Contains. simpl. by rewrite lookup_singleton_ne.
    + simpl. by rewrite map_size_singleton.
  - exists (Node.Object (<[k := v]> m)).
    split; [apply Hobject|]. destruct (Hlookup m) as [Hget Hhas].
    split; [done|]. split; [done|]. split.
    + intros k' Hk'. unfold Node.Contains, Node.subscript_const. simpl.
      by rewrite lookup_insert_ne.
    + unfold Node.Contains. simpl. destruct (m !! k) as [old|] eqn:Hk.
      * rewrite bool_decide_eq_true_2 by done.
        rewrite map_size_insert_Some by done. lia.
      * rewrite bool_decide_eq_false_2 by (by intros [? ?]).
        rewrite map_size_insert_None by done. lia.
Qed.

(** Assigning a value of a custom type runs its converter on the node as it
    is, where constructing a node from it runs the converter on a Null
    node: with a converter that writes one field, the fields that an Object
    already has stay, and a node of another variant makes the assignment
    throw. *)
Theorem custom_assignment_keeps_fields (m : gmap string Node) (k : string) (v : Node) :
  assign_custom (Node.subscript k (Node.assign v)) (Node.Object m)
  = (Node.Object (<[k := v]> m), Return tt)
  ∧ construct_custom (Node.subscript k (Node.assign v)) = Return (Node.Object {[k := v]})
  ∧ ∀ n, Node.IsObject n || Node.IsNull n = false →
      assign_custom (Node.subscript k (Node.assign v)) n
      = (n, Throw (NodeError ("Cannot access field '" ++ k ++ "' on non-object node."))).
Proof.
  split; [|split].
  - unfold assign_custom, Node.subscript. simpl.
    destruct (m !! k); simpl; [done|]. by rewrite insert_insert_eq.
  - unfold construct_custom, run. by rewrite subscript_on_Null.
  - intros n Hn. by destruct n.
Qed.

End NodeMore.

Lemma Push_then_index_witness :
  Node.Length (Node.Sequence [Node.Integer 7]) < 2 ^ 31
  ∧ ∃ n', @Node.Push gcc (Node.Integer 8) (Node.Sequence [Node.Integer 7]) = (n', Return tt)
          ∧ @Node.subscript_index_const gcc 1 n' = Return (Node.Integer 8).
Proof.
  assert (Hlen : Node.Length (Node.Sequence [Node.Integer 7]) < 2 ^ 31) by (simpl; lia).
  split; [exact Hlen|].
  destruct (@Push_then_index gcc [Node.Integer 7] (Node.Integer 8) Hlen)
    as (n' & Hpush & _ & Hlast & _).
  exists n'. split; [exact Hpush | exact Hlast].
Defined.

Lemma index_assignment_witness :
  0 <= 1 < 2 ^ 31
  ∧ @Node.subscript_index gcc unit 1 (Node.assign (Node.String "b"))
      (Node.Sequence [Node.Integer 7; Node.Integer 8])
    = (Node.Sequence [Node.Integer 7; Node.String "b"], Return tt).
Proof.
  assert (Hindex : 0 <= 1 < 2 ^ 31) by lia.
  split; [exact Hindex|].
  exact (proj1 (@index_assignment gcc [Node.Integer 7; Node.Integer 8] 1
                  (Node.String "b") Hindex)).
Defined.

Lemma field_assignment_then_lookup_witness :
  Node.IsObject Node.Null || Node.IsNull Node.Null = true
  ∧ ∃ n', @Node.subscript gcc unit "port" (Node.assign (Node.Integer 8080)) Node.Null
          = (n', Return tt)
          ∧ @Node.subscript_const gcc "port" n' = Return (Node.Integer 8080)
          ∧ Node.Length n' = 1.
Proof.
  assert (Hn : Node.IsObject Node.Null || Node.IsNull Node.Null = true) by reflexivity.
  split; [exact Hn|].
  destruct (@field_assignment_then_lookup gcc Node.Null "port" (Node.Integer 8080) Hn)
    as (n' & Hassign & Hget & _ & _ & Hlength).
  exists n'. split; [exact Hassign|]. split; [exact Hget | exact Hlength].
Defined.

(** * More properties of the JSON codecs *)

Section JsonMore.
Context `{Platform} `{Nlohmann}.

(** [Parse] of [module/] returns a node on every text that [json::parse]
    accepts, and on any other text throws [ParseError] with the message of
    the library: no other exception leaves it. *)
Theorem module_Parse_fails_only_on_malformed_text (content : string) :
  match json_parse content with
  | Ok input => ∃ node, module_json_parse.Parse content = Return node
                        ∧ module_json_parse.Convert input = Return node
  | Raise what =>
      module_json_parse.Parse content = Throw (module_json_parse.ParseError what)
  end.
Proof.
  unfold module_json_parse.Parse.
  destruct (json_parse content) as [input|what]; simpl; [|done].
  destruct (module_Convert_returns input) as [node Hnode].
  exists node. by rewrite Hnode.
Qed.

Lemma sources_fold_throws (l : list Json) (e : Exception) :
  foldl (fun output element =>
           output ← output; node ← sources_json_parse.Convert element;
           run (Node.Push node) output) (Throw e) l = Throw e.
Proof. induction l as [|element l IH]; [done|]. simpl. apply IH. Qed.

(** On a JSON value that has a binary or discarded value in it, [Convert]
    of [sources/] throws [ParseError]. *)
Lemma sources_Convert_outside_mapping (input : Json) :
  in_mapping input = false →
  ∃ what, sources_json_parse.Convert input = Throw (JsonFormat_ParseError what).
Proof.
  induction input as [elements IH|members IH|input Harray Hobject] using Json_induction;
    intros Hin.
  - simpl in *. unfold sources_json_parse.ConvertSequence.
    assert (Hfold : ∀ acc : Result Node,
      acc = Return Node.Null ∨ (∃ v, acc = Return (Node.Sequence v)) →
      ∃ what, foldl (fun output element =>
           output ← output; node ← sources_json_parse.Convert element;
           run (Node.Push node) output) acc elements
        = Throw (JsonFormat_ParseError what)).
    { induction IH as [|element elements Helement _ IHl]; intros acc Hacc; [done|].
      simpl in Hin. simpl.
      destruct (in_mapping element) eqn:He.
      - simpl in Hin. apply (IHl Hin). right.
        rewrite (Convert_same_in_mapping element He).
        destruct (module_Convert_returns element) as [node ->].
        destruct Hacc as [->|[v ->]]; simpl; eexists; reflexivity.
      - destruct (Helement eq_refl) as [what Hwhat]. exists what.
        rewrite Hwhat. destruct Hacc as [->|[v ->]]; simpl; apply sources_fold_throws. }
    apply Hfold. by left.
  - simpl in *. unfold sources_json_parse.ConvertObject.
    induction members as [|field element members Hfresh Hfirst IHm] using map_first_key_ind.
    + by rewrite map_fold_empty in Hin.
    + rewrite map_fold_insert_first_key in Hin by done.
      apply map_Forall_insert in IH as [Helement IH]; [|done].
      rewrite map_fold_insert_first_key by done.
      destruct (map_fold (fun _ element rest => in_mapping element && rest) true members)
        eqn:Hrest.
      * rewrite andb_true_r in Hin. destruct (Helement Hin) as [what Hwhat].
        exists what.
        pose proof (Convert_same_in_mapping (Jobject members)) as Hsame.
        simpl in Hsame.
        unfold sources_json_parse.ConvertObject, module_json_parse.ConvertObject in Hsame.
        rewrite (Hsame Hrest).
        destruct (module_Convert_returns (Jobject members)) as [node Hnode].
        simpl in Hnode. unfold module_json_parse.ConvertObject in Hnode.
        rewrite Hnode. simpl. by rewrite Hwhat.
      * destruct (IHm IH eq_refl) as [what ->]. by exists what.
  - destruct input; try discriminate; try (eexists; reflexivity).
    + by destruct (Hobject members).
    + by destruct (Harray elements).
Qed.

(** [Parse] of [sources/] returns a node exactly on the texts that
    [json::parse] accepts with a value of the eight mapped types
    throughout, the node that [Parse] of [module/] returns; on every other
    text it throws [ParseError] and nothing else. *)
Theorem sources_Parse_outcomes (content : string) :
  match json_parse content with
  | Ok input =>
      if in_mapping input then
        ∃ node, sources_json_parse.Parse content = Return node
                ∧ module_json_parse.Parse content = Return node
      else
        ∃ what, sources_json_parse.Parse content = Throw (JsonFormat_ParseError what)
  | Raise what =>
      sources_json_parse.Parse content = Throw (sources_json_parse.ParseError what)
  end.
Proof.
  unfold sources_json_parse.Parse, module_json_parse.Parse.
  destruct (json_parse content) as [input|what]; simpl; [|done].
  destruct (in_mapping input) eqn:Hin.
  - rewrite (Convert_same_in_mapping input Hin).
    destruct (module_Convert_returns input) as [node ->]. by exists node.
  - destruct (sources_Convert_outside_mapping input Hin) as [what ->]. by exists what.
Qed.

(** A JSON unsigned number above the largest [std::int64_t] becomes a
    negative Integer, [2^64] less; one below it keeps its value. *)
Theorem unsigned_above_int64_wraps (u : Z) :
  0 <= u < 2 ^ 64 →
  module_json_parse.Convert (Jnumber_unsigned u)
  = Return (Node.Integer (if u <? 2 ^ 63 then u else u - 2 ^ 64))
  ∧ sources_json_parse.Convert (Jnumber_unsigned u)
    = Return (Node.Integer (if u <? 2 ^ 63 then u else u - 2 ^ 64)).
Proof.
  intros Hu.
  assert (Hcast : to_int64 u = if u <? 2 ^ 63 then u else u - 2 ^ 64).
  { unfold to_int64. destruct (Z.ltb_spec u (2 ^ 63)).
    - rewrite Z.mod_small; lia.
    - assert (Hmod : (u + 2 ^ 63) mod 2 ^ 64 = u - 2 ^ 64 + 2 ^ 63).
      { symmetry. apply (Z.mod_unique_pos _ _ 1); lia. }
      rewrite Hmod. lia. }
  split.
  - change (Return (Node.Integer (to_int64 u))
            = Return (Node.Integer (if u <? 2 ^ 63 then u else u - 2 ^ 64))).
    by rewrite Hcast.
  - change (Return (Node.Integer (to_int64 u))
            = Return (Node.Integer (if u <? 2 ^ 63 then u else u - 2 ^ 64))).
    by rewrite Hcast.
Qed.

Lemma module_fold_Push (elements : list Json) (nodes : list Node) :
  Forall2 (fun element node => module_json_parse.Convert element = Return node)
          elements nodes →
  ∀ done_ : list Node,
    foldl (fun output element =>
             output ← output; node ← module_json_parse.Convert element;
             run (Node.Push node) output)
          (Return (Node.Sequence done_)) elements
    = Return (Node.Sequence (done_ ++ nodes)).
Proof.
  induction 1 as [|element node elements nodes Helement _ IH]; intros done_; simpl.
  - by rewrite app_nil_r.
  - rewrite Helement. simpl.
    change (run (Node.Push node) (Node.Sequence done_))
      with (Return (Node.Sequence (done_ ++ [node]))).
    rewrite IH. by rewrite <- app_assoc.
Qed.

(** [Convert] of a JSON array returns the Sequence of the nodes of its
    elements, one for each and in their order, except that the empty array
    gives a Null node and not an empty Sequence. *)
Theorem array_becomes_Sequence_in_order (elements : list Json) :
  ∃ nodes : list Node,
    Forall2 (fun element node => module_json_parse.Convert element = Return node)
            elements nodes
    ∧ module_json_parse.Convert (Jarray elements)
      = Return (match nodes with [] => Node.Null | _ => Node.Sequence nodes end)
    ∧ (elements = [] ↔ module_json_parse.Convert (Jarray elements) = Return Node.Null).
Proof.
  assert (Hnodes : ∃ nodes : list Node,
    Forall2 (fun element node => module_json_parse.Convert element = Return node)
            elements nodes).
  { induction elements as [|element elements [nodes IH]]; [by exists []|].
    destruct (module_Convert_returns element) as [node Hnode].
    exists (node :: nodes). by constructor. }
  destruct Hnodes as [nodes Hnodes]. exists nodes. split; [done|].
  destruct Hnodes as [|element node elements nodes Helement Hnodes].
  - done.
  - assert (HConvert : module_json_parse.Convert (Jarray (element :: elements))
                       = Return (Node.Sequence (node :: nodes))).
    { simpl. unfold module_json_parse.ConvertSequence. simpl. rewrite Helement. simpl.
      change (run (Node.Push node) Node.Null) with (Return (Node.Sequence [node])).
      by rewrite (module_fold_Push elements nodes Hnodes [node]). }
    split; [exact HConvert|]. rewrite HConvert. split; discriminate.
Qed.

(** [Convert] of a JSON object returns a Null node for the empty object and
    otherwise an Object in which every member is found under its key cut at
    the first NUL, and every field is the node of such a member; when no key
    has a NUL in it, the Object has the keys of the JSON object, each with
    the node of its member. *)
Theorem object_becomes_Object_by_key (members : gmap string Json) :
  ∃ out : gmap string Node,
    module_json_parse.Convert (Jobject members)
    = Return (if bool_decide (size out = 0%nat) then Node.Null else Node.Object out)
    ∧ (size out = 0%nat ↔ members = ∅)
    ∧ (∀ field element, members !! field = Some element →
                        is_Some (out !! c_str field))
    ∧ (∀ key node, out !! key = Some node →
         ∃ field element, c_str field = key ∧ members !! field = Some element
                          ∧ module_json_parse.Convert element = Return node)
    ∧ (map_Forall (fun field _ => c_str field = field) members →
       ∀ field, match members !! field, out !! field with
                | Some element, Some node =>
                    module_json_parse.Convert element = Return node
                | None, None => True
                | _, _ => False
                end).
Proof.
  simpl. unfold module_json_parse.ConvertObject.
  induction members as [|field element members Hfresh Hfirst IH] using map_first_key_ind.
  - exists ∅. rewrite map_fold_empty. split; [done|]. split; [done|].
    split; [intros field element Hfield; by rewrite lookup_empty in Hfield|].
    split; [intros key node Hkey; by rewrite lookup_empty in Hkey|].
    intros _ field. by rewrite !lookup_empty.
  - destruct IH as (out & Hfold & Hsize & Hcover & Hsound & Hexact).
    destruct (module_Convert_returns element) as [node Hnode].
    exists (<[c_str field := node]> out).
    rewrite map_fold_insert_first_key by done.
    rewrite Hfold, Hnode. simpl. unfold Node.subscript_string.
    rewrite run_subscript_assign.
    assert (Hne : size (<[c_str field := node]> out) ≠ 0%nat).
    { intros Hzero. apply map_size_empty_iff in Hzero.
      by apply insert_non_empty in Hzero. }
    split; [by rewrite bool_decide_eq_false_2|].
    split.
    { split; [done|]. intros Hempty. by apply insert_non_empty in Hempty. }
    split.
    { intros field' element' Hfield'.
      destruct (decide (c_str field' = c_str field)) as [->|Hother].
      - rewrite lookup_insert_eq. by eexists.
      - rewrite lookup_insert_ne by done.
        destruct (decide (field' = field)) as [->|Hfield]; [done|].
        rewrite lookup_insert_ne in Hfield' by done. by eapply Hcover. }
    split.
    { intros key node' Hkey.
      destruct (decide (key = c_str field)) as [->|Hother].
      - rewrite lookup_insert_eq in Hkey. injection Hkey as <-.
        exists field, element. by rewrite lookup_insert_eq.
      - rewrite lookup_insert_ne in Hkey by done.
        destruct (Hsound key node' Hkey) as (field' & element' & Hcut & Hfield' & Hnode').
        exists field', element'. split; [done|]. split; [|done].
        rewrite lookup_insert_ne; [done|]. intros <-. congruence. }
    intros Hnul field'.
    apply map_Forall_insert in Hnul as [Hcut Hnul]; [|done].
    rewrite Hcut.
    destruct (decide (field' = field)) as [->|Hother].
    + by rewrite !lookup_insert_eq.
    + rewrite !lookup_insert_ne by done. by apply Hexact.
Qed.

(** [Dump] returns the text that the library prints for the JSON value of
    the node, with four spaces of indentation, and when the library refuses
    to print it throws [DumpError] with the message of the library; it
    fails in no other way. *)
Theorem Dump_fails_only_in_the_library (node : Node) :
  module_json_dump.Convert node = Return (to_json node)
  ∧ module_json_dump.Dump node
    = match json_dump (to_json node) 4 with
      | Ok text => Return text
      | Raise what => Throw (module_json_dump.DumpError what)
      end.
Proof.
  split; [apply dump_Convert_to_json|].
  unfold module_json_dump.Dump. rewrite dump_Convert_to_json. simpl.
  by destruct (json_dump (to_json node) 4).
Qed.

Lemma sources_Convert_to_json (node : Node) :
  sources_json_dump.Convert node = Return (to_json node).
Proof.
  induction node as [v IH|m IH|node Hsequence Hobject] using Node_induction.
  - simpl. unfold sources_json_dump.ConvertSequence.
    assert (Hfold : ∀ done_,
      foldl (fun output element =>
           output ← output; j ← sources_json_dump.Convert element; push_back j output)
        (Return (Jarray done_)) v = Return (Jarray (done_ ++ (to_json <$> v)))).
    { induction IH as [|element v Helement _ IHv]; intros done_; simpl.
      - by rewrite app_nil_r.
      - rewrite Helement. simpl. rewrite IHv. by rewrite <- app_assoc. }
    apply Hfold.
  - simpl. unfold sources_json_dump.ConvertObject.
    induction m as [|field element m Hfresh Hfirst IHm] using map_first_key_ind.
    + by rewrite map_fold_empty, fmap_empty.
    + apply map_Forall_insert in IH as [Helement IH]; [|done].
      rewrite map_fold_insert_first_key by done.
      rewrite (IHm IH), Helement. simpl. by rewrite fmap_insert.
  - by destruct node.
Qed.

(** The [Dump] of [sources/] and the [Dump] of [module/] build the same
    JSON value for every node, return the same text when the library prints
    it, and both throw [DumpError] when it does not; their messages differ
    by the prefix that [module/] adds. *)
Theorem Dump_of_sources_and_module_agree (node : Node) :
  sources_json_dump.Convert node = module_json_dump.Convert node
  ∧ agree_on_text (module_json_dump.Dump node) (sources_json_dump.Dump node)
  ∧ (∀ what, sources_json_dump.Dump node = Throw (JsonFormat_DumpError what) →
             module_json_dump.Dump node
             = Throw (JsonFormat_DumpError ("Config::JsonError::DumpError: " ++ what))).
Proof.
  split; [by rewrite sources_Convert_to_json, dump_Convert_to_json|].
  unfold module_json_dump.Dump, sources_json_dump.Dump.
  rewrite sources_Convert_to_json, dump_Convert_to_json. simpl.
  destruct (json_dump (to_json node) 4) as [text|what]; simpl.
  - split; [done|]. discriminate.
  - split; [done|]. intros what' Hwhat. by injection Hwhat as <-.
Qed.

End JsonMore.

Lemma unsigned_above_int64_wraps_witness :
  0 <= 2 ^ 64 - 1 < 2 ^ 64
  ∧ @module_json_parse.Convert gcc recorded_nlohmann (Jnumber_unsigned (2 ^ 64 - 1))
    = Return (Node.Integer (-1)).
Proof.
  assert (Hu : 0 <= 2 ^ 64 - 1 < 2 ^ 64) by lia.
  split; [exact Hu|].
  exact (proj1 (@unsigned_above_int64_wraps gcc recorded_nlohmann (2 ^ 64 - 1) Hu)).
Defined.

(** * More properties of the YAML codec *)

Lemma Yaml_induction (P : Yaml → Prop) :
  P YUndefined → P YNull → (∀ scalar, P (YScalar scalar)) →
  (∀ elements, Forall P elements → P (YSequence elements)) →
  (∀ entries, Forall (fun entry => P entry.2) entries → P (YMap entries)) →
  ∀ input, P input.
Proof.
  intros Hundefined Hnull Hscalar Hsequence Hmap.
  fix IH 1. intros [| |scalar|elements|entries].
  - exact Hundefined.
  - exact Hnull.
  - apply Hscalar.
  - apply Hsequence. induction elements as [|element elements IHl]; constructor.
    + apply IH.
    + exact IHl.
  - apply Hmap. induction entries as [|[key value] entries IHl]; constructor.
    + apply IH.
    + exact IHl.
Qed.

Lemma all_textual_Object (m : gmap string Node) :
  map_Forall (fun _ element => Node_all textual element = true) m →
  Node_all textual (Node.Object m) = true.
Proof.
  simpl. induction m as [|field element m Hfresh Hfirst IH] using map_first_key_ind;
    intros Hall.
  - by rewrite map_fold_empty.
  - apply map_Forall_insert in Hall as [Helement Hall]; [|done].
    rewrite map_fold_insert_first_key by done. by rewrite Helement, (IH Hall).
Qed.

Section YamlMore.
Context `{Platform} `{YamlCpp}.

Lemma yaml_Convert_outcomes (input : Yaml) :
  Convert_outcome input (module_yaml_parse.Convert input).
Proof.
  induction input as [| |scalar|elements IH|entries IH] using Yaml_induction.
  - reflexivity.
  - reflexivity.
  - reflexivity.
  - simpl. unfold module_yaml_parse.ConvertSequence.
    assert (Hfold : ∀ acc : Result Node,
      match acc with
      | Return Node.Null => True
      | Return (Node.Sequence v) => forallb (Node_all textual) v = true
      | _ => False
      end →
      match foldl (fun output element =>
                     output ← output; node ← module_yaml_parse.Convert element;
                     run (Node.Push node) output) acc elements with
      | Return node => Node_all textual node = true
      | Throw (YAML_BadConversion _) => forallb well_formed elements = false
      | Throw (YamlFormat_ParseError _) => forallb well_formed elements = false
      | _ => False
      end).
    { induction IH as [|element elements Helement _ IHl]; intros acc Hacc.
      - simpl. by destruct acc as [[]| |].
      - simpl foldl. simpl forallb.
        assert (Hthrown : ∀ e, foldl (fun output element =>
                     output ← output; node ← module_yaml_parse.Convert element;
                     run (Node.Push node) output) (Throw e) elements = Throw e).
        { intros e. clear. induction elements as [|element' elements IH]; [done|].
          simpl. apply IH. }
        unfold Convert_outcome in Helement.
        destruct (module_yaml_parse.Convert element) as [node|e|] eqn:Hnode.
        + destruct acc as [[| | | | |v|]| |]; try done.
          * specialize (IHl (Return (Node.Sequence [node]))).
            simpl in IHl. rewrite Helement in IHl. specialize (IHl eq_refl).
            simpl.
            change (run (Node.Push node) Node.Null) with (Return (Node.Sequence [node])).
            destruct (foldl _ _ elements) as [node'|[]|]; try done;
              rewrite IHl; apply andb_false_r.
          * specialize (IHl (Return (Node.Sequence (v ++ [node])))).
            simpl in IHl. rewrite forallb_app in IHl. simpl in IHl.
            rewrite Hacc, Helement in IHl. specialize (IHl eq_refl).
            simpl.
            change (run (Node.Push node) (Node.Sequence v))
              with (Return (Node.Sequence (v ++ [node]))).
            destruct (foldl _ _ elements) as [node'|[]|]; try done;
              rewrite IHl; apply andb_false_r.
        + destruct acc as [[| | | | |v|]| |]; try done; simpl; rewrite Hthrown;
            destruct e; try done; by rewrite Helement.
        + done. }
    apply (Hfold (Return Node.Null) I).
  - simpl. unfold module_yaml_parse.ConvertMap.
    set (wf_entry := fun entry : Yaml * Yaml =>
                       match entry.1 with
                       | YScalar _ => well_formed entry.2
                       | _ => false
                       end).
    assert (Hfold : ∀ m : gmap string Node,
      map_Forall (fun _ element => Node_all textual element = true) m →
      match foldl (fun output element =>
                     output ← output; node ← module_yaml_parse.Convert element.2;
                     field ← as_String element.1;
                     run (Node.subscript_string field (Node.assign node)) output)
                  (Return (if bool_decide (size m = 0%nat) then Node.Null else Node.Object m))
                  entries with
      | Return node => Node_all textual node = true
      | Throw (YAML_BadConversion _) => forallb wf_entry entries = false
      | Throw (YamlFormat_ParseError _) => forallb wf_entry entries = false
      | _ => False
      end).
    { induction IH as [|[key value] entries Hvalue _ IHl]; intros m Hm.
      - simpl. case_bool_decide; [done|]. by apply all_textual_Object.
      - simpl foldl. simpl forallb.
        assert (Hthrown : ∀ e, foldl (fun output element =>
                     output ← output; node ← module_yaml_parse.Convert element.2;
                     field ← as_String element.1;
                     run (Node.subscript_string field (Node.assign node)) output)
                  (Throw e) entries = Throw e).
        { intros e. clear. induction entries as [|entry entries IH]; [done|].
          simpl. apply IH. }
        unfold Convert_outcome in Hvalue. simpl in Hvalue.
        assert (Hstep : ∀ node field,
          Node_all textual node = true →
          match foldl (fun output element =>
                     output ← output; node ← module_yaml_parse.Convert element.2;
                     field ← as_String element.1;
                     run (Node.subscript_string field (Node.assign node)) output)
                  (run (Node.subscript_string field (Node.assign node))
                     (if bool_decide (size m = 0%nat) then Node.Null else Node.Object m))
                  entries with
          | Return node => Node_all textual node = true
          | Throw (YAML_BadConversion _) => wf_entry (key, value) && forallb wf_entry entries = false
          | Throw (YamlFormat_ParseError _) => wf_entry (key, value) && forallb wf_entry entries = false
          | _ => False
          end).
        { intros node field Hnode. unfold Node.subscript_string.
          rewrite run_subscript_assign.
          specialize (IHl (<[c_str field := node]> m)).
          rewrite bool_decide_eq_false_2 in IHl.
          2:{ intros Hzero. apply map_size_empty_iff in Hzero.
              by apply insert_non_empty in Hzero. }
          specialize (IHl (map_Forall_insert_2 _ _ _ _ Hnode Hm)).
          destruct (foldl _ _ entries) as [node'|[]|]; try done;
            rewrite IHl; apply andb_false_r. }
        set (start := if bool_decide (size m = 0%nat) then Node.Null else Node.Object m) in *.
        change (output ← Return start; node ← module_yaml_parse.Convert (key, value).2;
                field ← as_String (key, value).1;
                run (Node.subscript_string field (Node.assign node)) output)
          with (node ← module_yaml_parse.Convert value; field ← as_String key;
                run (Node.subscript_string field (Node.assign node)) start).
        destruct (module_yaml_parse.Convert value) as [node|e|] eqn:Hnode.
        + destruct key as [| |scalar|elements|entries'].
          * simpl. unfold of_as. destruct (as_String_of_non_scalar YUndefined) as [field|what].
            -- apply (Hstep node field Hvalue).
            -- simpl. by rewrite Hthrown.
          * simpl. unfold of_as. destruct (as_String_of_non_scalar YNull) as [field|what].
            -- apply (Hstep node field Hvalue).
            -- simpl. by rewrite Hthrown.
          * apply (Hstep node scalar Hvalue).
          * simpl. unfold of_as.
            destruct (as_String_of_non_scalar (YSequence elements)) as [field|what].
            -- apply (Hstep node field Hvalue).
            -- simpl. by rewrite Hthrown.
          * simpl. unfold of_as.
            destruct (as_String_of_non_scalar (YMap entries')) as [field|what].
            -- apply (Hstep node field Hvalue).
            -- simpl. by rewrite Hthrown.
        + simpl. rewrite Hthrown. unfold wf_entry. simpl.
          destruct e; try done; rewrite Hvalue; by destruct key.
        + done. }
    pose proof (Hfold ∅ (map_Forall_empty _)) as Hempty.
    rewrite bool_decide_eq_true_2 in Hempty by apply map_size_empty.
    exact Hempty.
Qed.

(** [Parse] throws [ParseError] with the message of yaml-cpp on a text that
    [YAML::Load] refuses; on a text that it reads, [Parse] returns what
    [Convert] returns on the document or throws [ParseError], and throws
    only when the document has an undefined node or a key that is not a
    scalar.  No other exception leaves [Parse]. *)
Theorem yaml_Parse_fails_only_with_ParseError (input : string) :
  match Load input with
  | Raise what =>
      module_yaml_parse.Parse input = Throw (module_yaml_parse.ParseError what)
  | Ok document =>
      match module_yaml_parse.Parse input with
      | Return node => module_yaml_parse.Convert document = Return node
      | Throw (YamlFormat_ParseError _) => well_formed document = false
      | _ => False
      end
  end.
Proof.
  unfold module_yaml_parse.Parse.
  destruct (Load input) as [document|what]; [|done]. simpl of_yaml.
  change (input ← Return document; module_yaml_parse.Convert input)
    with (module_yaml_parse.Convert document).
  pose proof (yaml_Convert_outcomes document) as Houtcome.
  unfold Convert_outcome in Houtcome.
  by destruct (module_yaml_parse.Convert document) as [node|[]|].
Qed.

(** A tree that [Parse] returns has no Boolean, Integer or Floating node in
    it: every scalar of the document is a String node. *)
Theorem yaml_Parse_returns_text_only (input : string) (node : Node) :
  module_yaml_parse.Parse input = Return node →
  Node_all textual node = true.
Proof.
  unfold module_yaml_parse.Parse.
  destruct (Load input) as [document|what]; [|done]. simpl of_yaml.
  change (input ← Return document; module_yaml_parse.Convert input)
    with (module_yaml_parse.Convert document).
  pose proof (yaml_Convert_outcomes document) as Houtcome.
  unfold Convert_outcome in Houtcome.
  destruct (module_yaml_parse.Convert document) as [node'|[]|]; try done.
  by intros [= <-].
Qed.

End YamlMore.

Lemma yaml_Parse_returns_text_only_witness :
  @module_yaml_parse.Parse gcc recorded_yaml_cpp ports_text
  = Return (Node.Object
              {[ "ports" := Node.Sequence [Node.String "8080"; Node.String "8081"] ]})
  ∧ Node_all textual
      (Node.Object {[ "ports" := Node.Sequence [Node.String "8080"; Node.String "8081"] ]})
    = true.
Proof.
  assert (HParse : @module_yaml_parse.Parse gcc recorded_yaml_cpp ports_text
    = Return (Node.Object
                {[ "ports" := Node.Sequence [Node.String "8080"; Node.String "8081"] ]})).
  { apply (@Parse_of_loaded gcc recorded_yaml_cpp ports_text ports_document); [reflexivity|].
    apply Convert_ports_document. }
  split; [exact HParse|].
  exact (@yaml_Parse_returns_text_only gcc recorded_yaml_cpp ports_text _ HParse).
Defined.

(** * Properties of the YAML writer *)

Lemma map_fold_andb_Forall {A} (P : A → bool) (m : gmap string A) :
  map_fold (fun _ element rest => P element && rest) true m = true
  ↔ map_Forall (fun _ element => P element = true) m.
Proof.
  induction m as [|field element m Hfresh Hfirst IH] using map_first_key_ind.
  - rewrite map_fold_empty. split; [intros _; apply map_Forall_empty|done].
  - rewrite map_fold_insert_first_key by done.
    rewrite map_Forall_insert by done. rewrite andb_true_iff. by rewrite IH.
Qed.

Lemma assign_member_fresh (field : string) (value : Yaml) (entries : list (Yaml * Yaml)) :
  Forall (fun entry => key_equals entry.1 field = false) entries →
  assign_member field value entries = (entries ++ [(YScalar field, value)])%list.
Proof.
  induction 1 as [|entry entries Hentry _ IH]; simpl; [done|].
  by rewrite Hentry, IH.
Qed.

Section YamlWriter.
Context `{Platform} `{YamlCpp} `{YamlEmitter}.

(** [Convert] of [dump.cc] returns on every node: no field is assigned
    twice, so every field adds an entry to the map. *)
Lemma yaml_Convert_to_yaml (node : Node) :
  module_yaml_dump.Convert node = Return (to_yaml node).
Proof.
  induction node as [v IH|m IH|node Hsequence Hobject] using Node_induction.
  - simpl. unfold module_yaml_dump.ConvertSequence.
    assert (Hfold : ∀ done_ : list Yaml,
      foldl (fun (output : Result (list Yaml)) element =>
               output ← output; y ← module_yaml_dump.Convert element;
               Return (output ++ [y])%list)
            (Return done_) v = Return (done_ ++ (to_yaml <$> v))%list).
    { induction IH as [|element v Helement _ IHv]; intros done_; simpl.
      - by rewrite app_nil_r.
      - rewrite Helement. simpl. rewrite IHv. by rewrite <- app_assoc. }
    by rewrite Hfold.
  - simpl. unfold module_yaml_dump.ConvertObject.
    assert (Hfold :
      map_fold (fun field element output =>
                  output ← output; y ← module_yaml_dump.Convert element;
                  Return (assign_member field y output))
               (Return []) m
      = Return (map_fold (fun field element (entries : list (Yaml * Yaml)) =>
                            (entries ++ [(YScalar field, to_yaml element)])%list) [] m)
      ∧ Forall (fun entry : Yaml * Yaml =>
                  ∃ field, entry.1 = YScalar field ∧ is_Some (m !! field))
               (map_fold (fun field element (entries : list (Yaml * Yaml)) =>
                            (entries ++ [(YScalar field, to_yaml element)])%list) [] m)).
    { induction m as [|field element m Hfresh Hfirst IHm] using map_first_key_ind.
      - rewrite !map_fold_empty. by split.
      - apply map_Forall_insert in IH as [Helement IH]; [|done].
        destruct (IHm IH) as [Hentries Hkeys].
        rewrite !map_fold_insert_first_key by done.
        rewrite Hentries, Helement. simpl. split.
        + rewrite assign_member_fresh; [done|].
          eapply Forall_impl; [exact Hkeys|].
          intros [key value] (field' & Hkey & Hfield'). simpl in *. subst key.
          simpl. apply String.eqb_neq. intros ->.
          rewrite Hfresh in Hfield'. by destruct Hfield'.
        + apply Forall_app. split.
          * eapply Forall_impl; [exact Hkeys|].
            intros [key value] (field' & Hkey & Hfield'). exists field'.
            split; [done|]. rewrite lookup_insert_is_Some. destruct (decide (field = field'));
              [by left|by right].
          * constructor; [|constructor]. exists field. split; [done|].
            by rewrite lookup_insert_eq. }
    destruct Hfold as [-> _]. done.
  - by destruct node.
Qed.

(** [Convert] of [parse.cc] on the [YAML::Node] that [Convert] of
    [dump.cc] builds. *)
Lemma parse_Convert_to_yaml (node : Node) :
  Node_all keys_without_NUL node = true →
  module_yaml_parse.Convert (to_yaml node) = Return (as_text node).
Proof.
  induction node as [v IH|m IH|node Hsequence Hobject] using Node_induction;
    intros Hall.
  - simpl in Hall. simpl. unfold module_yaml_parse.ConvertSequence.
    destruct v as [|element v]; [done|].
    apply Forall_cons in IH as [Helement IH].
    simpl in Hall. apply andb_true_iff in Hall as [Hhead Htail].
    simpl. rewrite (Helement Hhead). simpl.
    change (run (Node.Push (as_text element)) Node.Null)
      with (Return (Node.Sequence [as_text element])).
    assert (Hrest : ∀ done_ : list Node,
      foldl (fun output element =>
               output ← output; node ← module_yaml_parse.Convert element;
               run (Node.Push node) output)
            (Return (Node.Sequence done_)) (to_yaml <$> v)
      = Return (Node.Sequence (done_ ++ (as_text <$> v)))).
    { clear -IH Htail.
      induction IH as [|element' v Helement' _ IHv]; intros done_; simpl.
      - by rewrite app_nil_r.
      - simpl in Htail. apply andb_true_iff in Htail as [Hhead' Htail'].
        rewrite (Helement' Hhead'). simpl.
        change (run (Node.Push (as_text element')) (Node.Sequence done_))
          with (Return (Node.Sequence (done_ ++ [as_text element']))).
        rewrite (IHv Htail'). by rewrite <- app_assoc. }
    by rewrite Hrest.
  - simpl in Hall. apply andb_true_iff in Hall as [Hkeys Helements].
    apply bool_decide_eq_true_1 in Hkeys.
    apply map_fold_andb_Forall in Helements.
    simpl to_yaml. simpl module_yaml_parse.Convert. unfold module_yaml_parse.ConvertMap.
    change (as_text (Node.Object m))
      with (if bool_decide (size m = 0%nat) then Node.Null
            else Node.Object (as_text <$> m)).
    induction m as [|field element m Hfresh Hfirst IHm] using map_first_key_ind.
    + by rewrite map_fold_empty.
    + apply map_Forall_insert in IH as [Helement IH]; [|done].
      apply map_Forall_insert in Hkeys as [Hcut Hkeys]; [|done].
      apply map_Forall_insert in Helements as [Hhead Helements]; [|done].
      rewrite map_fold_insert_first_key by done.
      rewrite foldl_app, (IHm IH Hkeys Helements). simpl.
      rewrite (Helement Hhead). simpl. unfold Node.subscript_string.
      rewrite <- (map_size_fmap as_text m), run_subscript_assign.
      rewrite Hcut, fmap_insert. rewrite bool_decide_eq_false_2; [done|].
      intros Hzero. apply map_size_empty_iff in Hzero.
      by apply insert_non_empty in Hzero.
  - by destruct node.
Qed.

(** [Dump] of [YamlFormat] returns the text that [YAML::Dump] gives for the
    [YAML::Node] of the node, and throws [DumpError] with the message of
    yaml-cpp when [YAML::Dump] throws; it fails in no other way. *)
Theorem yaml_Dump_fails_only_in_the_library (node : Node) :
  module_yaml_dump.Convert node = Return (to_yaml node)
  ∧ module_yaml_dump.Dump node
    = match YAML_Dump (to_yaml node) with
      | Ok text => Returned text
      | Raise what => Threw (module_yaml_dump.DumpError what)
      end.
Proof.
  split; [apply yaml_Convert_to_yaml|].
  unfold module_yaml_dump.Dump. by rewrite yaml_Convert_to_yaml.
Qed.

(** The YAML round trip does not give the node back: for a tree without a
    NUL in a key, when yaml-cpp prints the [YAML::Node] of the tree to a
    text that it loads back, [Parse] of the text of [Dump] returns the tree
    with every Boolean, Integer and Floating replaced by the String of its
    text, and every empty Sequence and Object by a Null node. *)
Theorem yaml_roundtrip_gives_text (node : Node) (text : string) :
  Node_all keys_without_NUL node = true →
  (∀ output, module_yaml_dump.Convert node = Return output →
             YAML_Dump output = Ok text ∧ Load text = Ok output) →
  module_yaml_dump.Dump node = Returned text
  ∧ module_yaml_parse.Parse text = Return (as_text node)
  ∧ Node_all textual (as_text node) = true.
Proof.
  intros Hkeys Hlibrary.
  destruct (Hlibrary _ (yaml_Convert_to_yaml node)) as [Hdump Hload].
  split.
  { unfold module_yaml_dump.Dump. rewrite yaml_Convert_to_yaml. simpl. by rewrite Hdump. }
  assert (HParse : module_yaml_parse.Parse text = Return (as_text node)).
  { apply (Parse_of_loaded text (to_yaml node)); [done|].
    by apply parse_Convert_to_yaml. }
  split; [done|].
  pose proof (yaml_Convert_outcomes (to_yaml node)) as Houtcome.
  rewrite (parse_Convert_to_yaml node Hkeys) in Houtcome. exact Houtcome.
Qed.

End YamlWriter.

(** * Properties of [Open] and [Save] *)

Section Io.
Context `{Platform} `{Nlohmann} `{YamlCpp} `{YamlEmitter} `{FileSystem}.

Lemma json_Parse_cases (content : string) :
  (∃ node, module_json_parse.Parse content = Return node)
  ∨ (∃ what, module_json_parse.Parse content = Throw (JsonFormat_ParseError what)).
Proof.
  unfold module_json_parse.Parse.
  destruct (json_parse content) as [input|what]; simpl.
  - destruct (module_Convert_returns input) as [node ->]. left. by exists node.
  - right. by eexists.
Qed.

Lemma yaml_Parse_cases (content : string) :
  (∃ node, module_yaml_parse.Parse content = Return node)
  ∨ (∃ what, module_yaml_parse.Parse content = Throw (YamlFormat_ParseError what)).
Proof.
  unfold module_yaml_parse.Parse.
  destruct (Load content) as [document|what]; [|right; by eexists]. simpl of_yaml.
  change (input ← Return document; module_yaml_parse.Convert input)
    with (module_yaml_parse.Convert document).
  pose proof (yaml_Convert_outcomes document) as Houtcome.
  unfold Convert_outcome in Houtcome.
  destruct (module_yaml_parse.Convert document) as [node|[]|]; try done.
  - left. by exists node.
  - right. by eexists.
  - right. by eexists.
Qed.

Lemma json_Dump_cases (node : Node) :
  (∃ text, module_json_dump.Dump node = Return text)
  ∨ (∃ what, module_json_dump.Dump node = Throw (JsonFormat_DumpError what)).
Proof.
  unfold module_json_dump.Dump. rewrite dump_Convert_to_json. simpl.
  destruct (json_dump (to_json node) 4) as [text|what]; [left|right]; by eexists.
Qed.

Lemma yaml_Dump_cases (node : Node) :
  (∃ text, module_yaml_dump.Dump node = Returned text)
  ∨ (∃ what, module_yaml_dump.Dump node = Threw (YamlFormat_DumpError what)).
Proof.
  unfold module_yaml_dump.Dump. rewrite yaml_Convert_to_yaml. simpl.
  destruct (YAML_Dump (to_yaml node)) as [text|what]; [left|right]; by eexists.
Qed.

(** [Open] chooses the reader by the extension of the path.  On a [.json]
    path it throws what [File::ReadString] throws, and on the text read it
    returns the node that the JSON [Parse] returns or throws its
    [ParseError]; on a [.yml] or [.yaml] path likewise with the YAML
    [Parse]; on any other path, and only there, it throws
    [OpenError("Undefined extension")].  No [NodeError] leaves it. *)
Theorem Open_dispatches_on_extension (path : string) (fs : files) :
  (extension path = ".json" →
   match ReadString path fs with
   | Raise what => module_io.Open path fs = Threw (File_exception what)
   | Ok content =>
       match module_json_parse.Parse content with
       | Return node => module_io.Open path fs = Returned node
       | Throw (JsonFormat_ParseError what) =>
           module_io.Open path fs = Threw (from_format (JsonFormat_ParseError what))
       | _ => False
       end
   end)
  ∧ (extension path = ".yml" ∨ extension path = ".yaml" →
     match ReadString path fs with
     | Raise what => module_io.Open path fs = Threw (File_exception what)
     | Ok content =>
         match module_yaml_parse.Parse content with
         | Return node => module_io.Open path fs = Returned node
         | Throw (YamlFormat_ParseError what) =>
             module_io.Open path fs = Threw (from_format (YamlFormat_ParseError what))
         | _ => False
         end
     end)
  ∧ (extension path ≠ ".json" → extension path ≠ ".yml" → extension path ≠ ".yaml" →
     module_io.Open path fs
     = Threw (OpenError "Config::IoError::OpenError: Undefined extension"))
  ∧ (∀ what, module_io.Open path fs = Threw (OpenError what) →
       extension path ≠ ".json" ∧ extension path ≠ ".yml" ∧ extension path ≠ ".yaml").
Proof.
  assert (Hjson : extension path = ".json" →
    match ReadString path fs with
    | Raise what => module_io.Open path fs = Threw (File_exception what)
    | Ok content =>
        match module_json_parse.Parse content with
        | Return node => module_io.Open path fs = Returned node
        | Throw (JsonFormat_ParseError what) =>
            module_io.Open path fs = Threw (from_format (JsonFormat_ParseError what))
        | _ => False
        end
    end).
  { intros Hext. unfold module_io.Open, module_io.read_then. rewrite Hext. simpl.
    destruct (ReadString path fs) as [content|what]; [|done].
    by destruct (json_Parse_cases content) as [[node ->]|[what ->]]. }
  assert (Hyaml : extension path = ".yml" ∨ extension path = ".yaml" →
    match ReadString path fs with
    | Raise what => module_io.Open path fs = Threw (File_exception what)
    | Ok content =>
        match module_yaml_parse.Parse content with
        | Return node => module_io.Open path fs = Returned node
        | Throw (YamlFormat_ParseError what) =>
            module_io.Open path fs = Threw (from_format (YamlFormat_ParseError what))
        | _ => False
        end
    end).
  { intros Hext. unfold module_io.Open, module_io.read_then.
    assert (Hchoice : String.eqb (extension path) ".json" = false
                      ∧ String.eqb (extension path) ".yml"
                        || String.eqb (extension path) ".yaml" = true).
    { destruct Hext as [-> | ->]; by split. }
    destruct Hchoice as [-> ->].
    destruct (ReadString path fs) as [content|what]; [|done].
    by destruct (yaml_Parse_cases content) as [[node ->]|[what ->]]. }
  split; [exact Hjson|]. split; [exact Hyaml|]. split.
  - intros Hnjson Hnyml Hnyaml. unfold module_io.Open.
    apply String.eqb_neq in Hnjson, Hnyml, Hnyaml. by rewrite Hnjson, Hnyml, Hnyaml.
  - intros what Hopen.
    assert (Hnjson : extension path ≠ ".json").
    { intros Hext. specialize (Hjson Hext). rewrite Hopen in Hjson.
      destruct (ReadString path fs) as [content|what']; [|done].
      by destruct (module_json_parse.Parse content) as [node|[]|]. }
    assert (Hnyaml : ¬ (extension path = ".yml" ∨ extension path = ".yaml")).
    { intros Hext. specialize (Hyaml Hext). rewrite Hopen in Hyaml.
      destruct (ReadString path fs) as [content|what']; [|done].
      by destruct (module_yaml_parse.Parse content) as [node|[]|]. }
    split; [done|]. split; intros Hext; apply Hnyaml; [by left|by right].
Qed.

(** [Save] makes the text before it touches the file.  On a [.json] path
    [Dump] of the JSON codec either returns a text, and [Save] is the one
    call of [File::WriteString] on the path and that text, failing as the
    call fails, or throws [DumpError], which [Save] throws with the files
    as they were; on a [.yml] or [.yaml] path likewise with [Dump] of the
    YAML codec; on any other path [Save] throws [SaveError("Undefined file
    format")] with the files as they were. *)
Theorem Save_writes_after_Dump (node : Node) (path : string) (fs : files) :
  (extension path = ".json" →
   match module_json_dump.Dump node with
   | Return text =>
       module_io.Save node path fs
       = ((WriteString path text fs).1,
          match (WriteString path text fs).2 with
          | Ok _ => Returned tt
          | Raise what => Threw (File_exception what)
          end)
   | Throw (JsonFormat_DumpError what) =>
       module_io.Save node path fs = (fs, Threw (from_format (JsonFormat_DumpError what)))
   | _ => False
   end)
  ∧ (extension path = ".yml" ∨ extension path = ".yaml" →
     match module_yaml_dump.Dump node with
     | Returned text =>
         module_io.Save node path fs
         = ((WriteString path text fs).1,
            match (WriteString path text fs).2 with
            | Ok _ => Returned tt
            | Raise what => Threw (File_exception what)
            end)
     | Threw (YamlFormat_DumpError what) =>
         module_io.Save node path fs = (fs, Threw (YamlFormat_DumpError what))
     | _ => False
     end)
  ∧ (extension path ≠ ".json" → extension path ≠ ".yml" → extension path ≠ ".yaml" →
     module_io.Save node path fs
     = (fs, Threw (SaveError "Config::IoError::SaveError: Undefined file format"))).
Proof.
  split; [|split].
  - intros Hext. unfold module_io.Save, module_io.then_write. rewrite Hext. simpl.
    destruct (json_Dump_cases node) as [[text ->]|[what ->]]; simpl; [|done].
    by destruct (WriteString path text fs) as [fs' [[]|what]].
  - intros Hext. unfold module_io.Save, module_io.then_write.
    assert (Hchoice : String.eqb (extension path) ".json" = false
                      ∧ String.eqb (extension path) ".yml"
                        || String.eqb (extension path) ".yaml" = true).
    { destruct Hext as [-> | ->]; by split. }
    destruct Hchoice as [-> ->].
    destruct (yaml_Dump_cases node) as [[text ->]|[what ->]]; simpl; [|done].
    by destruct (WriteString path text fs) as [fs' [[]|what]].
  - intros Hnjson Hnyml Hnyaml. unfold module_io.Save.
    apply String.eqb_neq in Hnjson, Hnyml, Hnyaml. by rewrite Hnjson, Hnyml, Hnyaml.
Qed.

(** [Save] to a [.json] path and [Open] of it give the tree back: for a
    tree in which every Integer is a [std::int64_t], every Floating is
    finite, every Sequence and Object has an element and no key has a NUL,
    when the library prints the JSON value of the tree to a text that it
    reads back, the text is written, and the file then reads as written. *)
Theorem Save_then_Open_json (node : Node) (path text : string) (fs fs' : files) :
  extension path = ".json" →
  Node_all faithful_in_json node = true →
  (∀ output, module_json_dump.Convert node = Return output →
             json_dump output 4 = Ok text ∧ json_parse text = Ok (read_back output)) →
  WriteString path text fs = (fs', Ok tt) →
  ReadString path fs' = Ok text →
  module_io.Save node path fs = (fs', Returned tt)
  ∧ module_io.Open path fs' = Returned node.
Proof.
  intros Hjson Hall Hlibrary Hwrite Hread.
  destruct (Hlibrary _ (dump_Convert_to_json node)) as [Hdump Hparse].
  unfold module_io.Save, module_io.Open, module_io.then_write, module_io.read_then.
  rewrite Hjson. simpl. split.
  - unfold module_json_dump.Dump. rewrite dump_Convert_to_json. simpl.
    rewrite Hdump. simpl. by rewrite Hwrite.
  - rewrite Hread. unfold module_json_parse.Parse. rewrite Hparse. simpl.
    by rewrite parse_Convert_read_back.
Qed.

(** [Save] to a [.yml] or [.yaml] path and [Open] of it do not give the
    tree back: under the like conditions on yaml-cpp and on the files,
    [Open] returns the tree with every Boolean, Integer and Floating
    replaced by the String of its text. *)
Theorem Save_then_Open_yaml (node : Node) (path text : string) (fs fs' : files) :
  extension path = ".yml" ∨ extension path = ".yaml" →
  Node_all keys_without_NUL node = true →
  (∀ output, module_yaml_dump.Convert node = Return output →
             YAML_Dump output = Ok text ∧ Load text = Ok output) →
  WriteString path text fs = (fs', Ok tt) →
  ReadString path fs' = Ok text →
  module_io.Save node path fs = (fs', Returned tt)
  ∧ module_io.Open path fs' = Returned (as_text node).
Proof.
  intros Hyaml Hkeys Hlibrary Hwrite Hread.
  destruct (Hlibrary _ (yaml_Convert_to_yaml node)) as [Hdump Hload].
  assert (Hchoice : String.eqb (extension path) ".json" = false
                    ∧ String.eqb (extension path) ".yml"
                      || String.eqb (extension path) ".yaml" = true).
  { destruct Hyaml as [-> | ->]; by split. }
  destruct Hchoice as [Hjson Hchoice].
  unfold module_io.Save, module_io.Open, module_io.then_write, module_io.read_then.
  rewrite Hjson, Hchoice. split.
  - unfold module_yaml_dump.Dump. rewrite yaml_Convert_to_yaml. simpl.
    rewrite Hdump. by rewrite Hwrite.
  - rewrite Hread.
    rewrite (Parse_of_loaded text (to_yaml node) (as_text node) Hload
               (parse_Convert_to_yaml node Hkeys)).
    done.
Qed.

End Io.

Lemma yaml_roundtrip_gives_text_witness :
  Node_all keys_without_NUL
    (Node.Object {[ "ports" := Node.Sequence [Node.Integer 8080; Node.Integer 8081] ]}) = true
  ∧ @module_yaml_dump.Dump gcc recorded_emitter
      (Node.Object {[ "ports" := Node.Sequence [Node.Integer 8080; Node.Integer 8081] ]})
    = Returned ports_text
  ∧ @module_yaml_parse.Parse gcc recorded_yaml_cpp ports_text
    = Return (Node.Object
                {[ "ports" := Node.Sequence [Node.String "8080"; Node.String "8081"] ]}).
Proof.
  assert (Hkeys : Node_all keys_without_NUL
    (Node.Object {[ "ports" := Node.Sequence [Node.Integer 8080; Node.Integer 8081] ]})
    = true) by (vm_compute; reflexivity).
  assert (Hlibrary : ∀ output,
    @module_yaml_dump.Convert gcc recorded_emitter
      (Node.Object {[ "ports" := Node.Sequence [Node.Integer 8080; Node.Integer 8081] ]})
    = Return output →
    @YAML_Dump recorded_emitter output = Ok ports_text
    ∧ @Load recorded_yaml_cpp ports_text = Ok output).
  { intros output Houtput. vm_compute in Houtput. injection Houtput as <-.
    split; vm_compute; reflexivity. }
  split; [exact Hkeys|].
  destruct (@yaml_roundtrip_gives_text gcc recorded_yaml_cpp recorded_emitter _ _
              Hkeys Hlibrary) as (HDump & HParse & _).
  split; [exact HDump | exact HParse].
Defined.

Lemma Save_then_Open_json_witness :
  @extension texts_by_path "ports.json" = ".json"
  ∧ @module_io.Save gcc recorded_nlohmann recorded_emitter texts_by_path
      (Node.Sequence [Node.Integer 8080; Node.Integer 8081]) "ports.json" ∅
    = ({[ "ports.json" := printed_ports ]}, Returned tt)
  ∧ @module_io.Open gcc recorded_nlohmann recorded_yaml_cpp texts_by_path
      "ports.json" {[ "ports.json" := printed_ports ]}
    = Returned (Node.Sequence [Node.Integer 8080; Node.Integer 8081]).
Proof.
  assert (Hjson : @extension texts_by_path "ports.json" = ".json") by reflexivity.
  assert (Hall : Node_all faithful_in_json
                   (Node.Sequence [Node.Integer 8080; Node.Integer 8081]) = true)
    by reflexivity.
  assert (Hlibrary : ∀ output,
       @module_json_dump.Convert gcc
         (Node.Sequence [Node.Integer 8080; Node.Integer 8081]) = Return output →
       @json_dump recorded_nlohmann output 4 = Ok printed_ports
       ∧ @json_parse recorded_nlohmann printed_ports = Ok (read_back output)).
  { intros output Houtput. injection Houtput as <-. split; reflexivity. }
  assert (Hwrite : @WriteString texts_by_path "ports.json" printed_ports ∅
                   = ({[ "ports.json" := printed_ports ]}, Ok tt)) by reflexivity.
  assert (Hread : @ReadString texts_by_path "ports.json" {[ "ports.json" := printed_ports ]}
                  = Ok printed_ports) by (vm_compute; reflexivity).
  split; [exact Hjson|].
  exact (@Save_then_Open_json gcc recorded_nlohmann recorded_yaml_cpp recorded_emitter
           texts_by_path _ _ _ _ _ Hjson Hall Hlibrary Hwrite Hread).
Defined.

Lemma Save_then_Open_yaml_witness :
  (@extension texts_by_path "ports.yaml" = ".yml"
   ∨ @extension texts_by_path "ports.yaml" = ".yaml")
  ∧ @module_io.Save gcc recorded_nlohmann recorded_emitter texts_by_path
      (Node.Object {[ "ports" := Node.Sequence [Node.Integer 8080; Node.Integer 8081] ]})
      "ports.yaml" ∅
    = ({[ "ports.yaml" := ports_text ]}, Returned tt)
  ∧ @module_io.Open gcc recorded_nlohmann recorded_yaml_cpp texts_by_path
      "ports.yaml" {[ "ports.yaml" := ports_text ]}
    = Returned (Node.Object
                  {[ "ports" := Node.Sequence [Node.String "8080"; Node.String "8081"] ]}).
Proof.
  assert (Hyaml : @extension texts_by_path "ports.yaml" = ".yml"
                  ∨ @extension texts_by_path "ports.yaml" = ".yaml")
    by (right; reflexivity).
  assert (Hkeys : Node_all keys_without_NUL
    (Node.Object {[ "ports" := Node.Sequence [Node.Integer 8080; Node.Integer 8081] ]})
    = true) by (vm_compute; reflexivity).
  assert (Hlibrary : ∀ output,
    @module_yaml_dump.Convert gcc recorded_emitter
      (Node.Object {[ "ports" := Node.Sequence [Node.Integer 8080; Node.Integer 8081] ]})
    = Return output →
    @YAML_Dump recorded_emitter output = Ok ports_text
    ∧ @Load recorded_yaml_cpp ports_text = Ok output).
  { intros output Houtput. vm_compute in Houtput. injection Houtput as <-.
    split; vm_compute; reflexivity. }
  assert (Hwrite : @WriteString texts_by_path "ports.yaml" ports_text ∅
                   = ({[ "ports.yaml" := ports_text ]}, Ok tt)) by reflexivity.
  assert (Hread : @ReadString texts_by_path "ports.yaml" {[ "ports.yaml" := ports_text ]}
                  = Ok ports_text) by (vm_compute; reflexivity).
  split; [exact Hyaml|].
  exact (@Save_then_Open_yaml gcc recorded_nlohmann recorded_yaml_cpp recorded_emitter
           texts_by_path _ _ _ _ _ Hyaml Hkeys Hlibrary Hwrite Hread).
Defined.

(** * Integers of every width *)

Section NodeIntegers.
Context `{Platform}.

Lemma to_int64_congruent (z : Z) : ∃ q, to_int64 z = z + q * 2 ^ 64.
Proof.
  unfold to_int64. exists (- ((z + 2 ^ 63) / 2 ^ 64)).
  rewrite Z.mod_eq by lia. lia.
Qed.

(** An integer of an integral type of at most 64 bits, signed or unsigned,
    that a node is constructed from or assigned reads back through [To<I>()]
    as the same value, also an unsigned value above the largest
    [std::int64_t], which the node holds as a negative Integer. *)
Theorem integer_reads_back_in_its_type (bits : Z) (signed : bool) (i : Z) (n : Node) :
  0 < bits <= 64 → is_integral bits signed i →
  Node.To (integral bits signed) (construct_Integer i) = Well_formed (Return i)
  ∧ Node.assign_Integer i n = (construct_Integer i, Return tt)
  ∧ Node.Is (integral bits signed) (construct_Integer i) = true.
Proof.
  intros Hbits Hi. split; [|by split].
  unfold construct_Integer, integral. simpl. do 2 f_equal.
  assert (Hpow : 2 ^ bits = 2 * 2 ^ (bits - 1)).
  { rewrite <- Z.pow_succ_r by lia. f_equal. lia. }
  assert (Hsplit : 2 ^ 64 = 2 ^ (64 - bits) * 2 ^ bits).
  { rewrite <- Z.pow_add_r by lia. f_equal. lia. }
  assert (Hpos : 0 < 2 ^ (bits - 1)) by (apply Z.pow_pos_nonneg; lia).
  assert (Hle : 2 ^ (bits - 1) <= 2 ^ 63) by (apply Z.pow_le_mono_r; lia).
  destruct (to_int64_congruent i) as [q ->].
  rewrite Hsplit, Z.mul_assoc.
  destruct signed; simpl in Hi.
  - rewrite <- Z.add_assoc, (Z.add_comm (q * 2 ^ (64 - bits) * 2 ^ bits)), Z.add_assoc.
    rewrite Z_mod_plus_full. rewrite Z.mod_small by lia. lia.
  - rewrite Z_mod_plus_full. apply Z.mod_small. lia.
Qed.

End NodeIntegers.

Lemma integer_reads_back_in_its_type_witness :
  0 < 64 <= 64 ∧ is_integral 64 false (2 ^ 64 - 1)
  ∧ construct_Integer (2 ^ 64 - 1) = Node.Integer (-1)
  ∧ @Node.To gcc Z (integral 64 false) (Node.Integer (-1))
    = Well_formed (Return (2 ^ 64 - 1)).
Proof.
  assert (Hbits : 0 < 64 <= 64) by lia.
  assert (Hi : is_integral 64 false (2 ^ 64 - 1)) by (simpl; lia).
  split; [exact Hbits|]. split; [exact Hi|]. split; [reflexivity|].
  exact (proj1 (@integer_reads_back_in_its_type gcc 64 false (2 ^ 64 - 1) Node.Null
                  Hbits Hi)).
Defined.

(** * The JSON round trip in general *)

Section RoundtripMore.
Context `{Platform} `{Nlohmann}.

(** [Convert] of [parse.cc] on what the library reads back, for any tree. *)
Lemma parse_Convert_as_read (node : Node) :
  Node_all representable node = true →
  module_json_parse.Convert (read_back (to_json node)) = Return (as_read node).
Proof.
  induction node as [v IH|m IH|node Hsequence Hobject] using Node_induction;
    intros Hall.
  - simpl in Hall.
    assert (Hfold : ∀ (l : list Node) (done_ : list Node),
      Forall (fun node => Node_all representable node = true →
                module_json_parse.Convert (read_back (to_json node))
                = Return (as_read node)) l →
      forallb (Node_all representable) l = true →
      foldl (fun output element =>
           output ← output; node ← module_json_parse.Convert element;
           run (Node.Push node) output)
        (Return (Node.Sequence done_)) (read_back <$> (to_json <$> l))
      = Return (Node.Sequence (done_ ++ (as_read <$> l)))).
    { clear. intros l done_ Hl. revert done_.
      induction Hl as [|element l Helement _ IHl]; intros done_ Hall; simpl.
      - by rewrite app_nil_r.
      - simpl in Hall. apply andb_true_iff in Hall as [He Hall].
        rewrite (Helement He). simpl.
        change (run (Node.Push (as_read element)) (Node.Sequence done_))
          with (Return (Node.Sequence (done_ ++ [as_read element]))).
        rewrite (IHl _ Hall). by rewrite <- app_assoc. }
    destruct v as [|element v]; [done|].
    simpl in Hall. apply andb_true_iff in Hall as [He Hv].
    apply Forall_cons in IH as [Helement IH].
    simpl. unfold module_json_parse.ConvertSequence. simpl.
    rewrite (Helement He). simpl.
    change (run (Node.Push (as_read element)) Node.Null)
      with (Return (Node.Sequence [as_read element])).
    by apply (Hfold v [as_read element] IH Hv).
  - simpl in Hall. apply andb_true_iff in Hall as [Hkeys Hall].
    apply bool_decide_eq_true in Hkeys.
    apply map_fold_andb_Forall in Hall.
    simpl to_json. simpl read_back. simpl module_json_parse.Convert.
    unfold module_json_parse.ConvertObject.
    rewrite <- map_fmap_compose, map_fold_fmap.
    change (as_read (Node.Object m))
      with (if bool_decide (size m = 0%nat) then Node.Null
            else Node.Object (as_read <$> m)).
    induction m as [|field element m Hfresh Hfirst IHm] using map_first_key_ind.
    + by rewrite map_fold_empty.
    + apply map_Forall_insert in IH as [Helement IH]; [|done].
      apply map_Forall_insert in Hkeys as [Hfield Hkeys]; [|done].
      apply map_Forall_insert in Hall as [He Hall]; [|done].
      rewrite map_fold_insert_first_key by done.
      rewrite (IHm IH Hkeys Hall). simpl. rewrite (Helement He). simpl.
      unfold Node.subscript_string.
      rewrite <- (map_size_fmap as_read m), Hfield, run_subscript_assign.
      rewrite fmap_insert. rewrite bool_decide_eq_false_2; [done|].
      rewrite map_size_insert_None by done. lia.
  - destruct node as [| | |i|f| |]; try done; simpl in Hall.
    + rewrite andb_true_r in Hall. apply andb_true_iff in Hall as [Hlo Hhi].
      apply Z.leb_le in Hlo. apply Z.ltb_lt in Hhi.
      simpl. destruct (Z.leb_spec 0 i); [|done].
      change (Return (Node.Integer (to_int64 i)) = Return (Node.Integer i)).
      assert (to_int64 i = i) as ->; [|done].
      unfold to_int64. rewrite Z.mod_small; lia.
    + simpl. by destruct (is_finite f).
Qed.

(** What the JSON round trip returns on any tree whose Integers are
    [std::int64_t] and whose keys have no NUL: when the library prints the
    JSON value of the tree to a text that it reads back, [Parse(Dump(n))]
    returns the tree with every Floating that is not finite, and every
    Sequence and Object without an element, replaced by a Null node, and
    everything else as it is. *)
Theorem json_roundtrip_in_general (node : Node) (text : string) :
  Node_all representable node = true →
  (∀ output, module_json_dump.Convert node = Return output →
             json_dump output 4 = Ok text ∧ json_parse text = Ok (read_back output)) →
  module_json_dump.Dump node = Return text
  ∧ module_json_parse.Parse text = Return (as_read node)
  ∧ Parse_Dump node = Return (as_read node).
Proof.
  intros Hall Hlibrary.
  destruct (Hlibrary _ (dump_Convert_to_json node)) as [Hdump Hparse].
  assert (HDump : module_json_dump.Dump node = Return text).
  { unfold module_json_dump.Dump. rewrite dump_Convert_to_json. simpl. by rewrite Hdump. }
  assert (HParse : module_json_parse.Parse text = Return (as_read node)).
  { unfold module_json_parse.Parse. rewrite Hparse. simpl.
    by rewrite parse_Convert_as_read. }
  split; [done|]. split; [done|].
  unfold Parse_Dump. rewrite HDump. simpl. exact HParse.
Qed.

End RoundtripMore.

Lemma json_roundtrip_in_general_witness :
  Node_all representable (Node.Sequence []) = true
  ∧ (∀ output, @module_json_dump.Convert gcc (Node.Sequence []) = Return output →
               @json_dump recorded_nlohmann output 4 = Ok "[]"
               ∧ @json_parse recorded_nlohmann "[]" = Ok (read_back output))
  ∧ @Parse_Dump gcc recorded_nlohmann (Node.Sequence []) = Return Node.Null.
Proof.
  assert (Hall : Node_all representable (Node.Sequence []) = true) by reflexivity.
  assert (Hlibrary : ∀ output,
       @module_json_dump.Convert gcc (Node.Sequence []) = Return output →
       @json_dump recorded_nlohmann output 4 = Ok "[]"
       ∧ @json_parse recorded_nlohmann "[]" = Ok (read_back output)).
  { intros output Houtput. injection Houtput as <-. split; reflexivity. }
  split; [exact Hall|]. split; [exact Hlibrary|].
  exact (proj2 (proj2 (@json_roundtrip_in_general gcc recorded_nlohmann _ _ Hall Hlibrary))).
Defined.
